(** * mlcheck: structural checking of HTML and Moodle XML documents

    A shallow embedding of [mlcheck.py]: the tag tables, the handler
    methods of [MyHTMLParser] as transitions of an explicit parser state,
    the Moodle multichoice checker, [detect_format], the two dialect
    branches of [validate_file] and the argument checks and scan loops of
    [main], followed by the properties that the specification states
    about them (C1 to C10) and by further properties read off the code
    (X1 onwards).

    Conventions.  A Python [str] is a [string]; a Python list is a [list]
    in the same order, so the open-element stack has its top at the END
    ([append] adds there, [pop] removes there, [[-1]] reads there).
    Positions and line numbers are unbounded Python integers, hence [Z];
    the two counters only ever count, hence [nat]. *)

From Stdlib Require Import String Ascii List Bool Arith ZArith Lia.
Import ListNotations.
Open Scope string_scope.
Open Scope list_scope.

(** ** Tag tables *)

(** [HTML_VOID_ELEMENTS], a Python set used for membership tests only. *)
Definition HTML_VOID_ELEMENTS : list string :=
  [ "area"; "base"; "br"; "col"; "embed"; "hr"; "img"; "input";
    "link"; "meta"; "param"; "source"; "track"; "wbr" ].

(** [self.raw_context_tags]. *)
Definition raw_context_tags : list string :=
  [ "pre"; "code"; "script"; "style" ].

(** Python's [tag in some_set]. *)
Definition mem (tag : string) (s : list string) : bool :=
  existsb (String.eqb tag) s.
Arguments mem : simpl never.

(** The specification's three-way reading of the two tables. *)
Inductive ElementKind : Type := Void | RawContent | Ordinary.

Definition classify (name : string) : ElementKind :=
  if mem name HTML_VOID_ELEMENTS then Void
  else if mem name raw_context_tags then RawContent
  else Ordinary.

(** ** Diagnostics *)

(** The first component of an error tuple is either a [(line, column)]
    pair ([getpos()], [e.position], the [(0, 0)] sentinel) or a bare line
    number ([q.sourceline]); the report distinguishes them with
    [isinstance(pos, tuple)]. *)
Inductive Pos : Type :=
| At (line column : Z)
| Line (sourceline : Z).

Definition error : Type := (Pos * string)%type.

(** ** The tag parser *)

(** The mutable attributes of a [MyHTMLParser] instance.  The two tag
    tables are constants of every instance. *)
Record MyHTMLParser : Type := mkParser {
  tags_stack : list string;
  errors : list error;
  tags_count : nat;
  is_in_raw_context : bool
}.

(** [MyHTMLParser.__init__]. *)
Definition init : MyHTMLParser :=
  {| tags_stack := []; errors := []; tags_count := 0;
     is_in_raw_context := false |}.

(** Attribute updates, one per assigned attribute. *)
Definition set_tags_stack (s : list string) (p : MyHTMLParser) : MyHTMLParser :=
  {| tags_stack := s; errors := errors p; tags_count := tags_count p;
     is_in_raw_context := is_in_raw_context p |}.

Definition set_errors (e : list error) (p : MyHTMLParser) : MyHTMLParser :=
  {| tags_stack := tags_stack p; errors := e; tags_count := tags_count p;
     is_in_raw_context := is_in_raw_context p |}.

Definition set_tags_count (n : nat) (p : MyHTMLParser) : MyHTMLParser :=
  {| tags_stack := tags_stack p; errors := errors p; tags_count := n;
     is_in_raw_context := is_in_raw_context p |}.

Definition set_is_in_raw_context (b : bool) (p : MyHTMLParser) : MyHTMLParser :=
  {| tags_stack := tags_stack p; errors := errors p;
     tags_count := tags_count p; is_in_raw_context := b |}.

(** [self.tags_stack[-1]], guarded in the source by [if not self.tags_stack]. *)
Fixpoint peek (s : list string) : option string :=
  match s with
  | [] => None
  | x :: s' => match s' with [] => Some x | _ :: _ => peek s' end
  end.

(** [handle_starttag(tag, attrs)]; the attributes are never looked at. *)
Definition handle_starttag (tag : string) (p : MyHTMLParser) : MyHTMLParser :=
  let p := set_tags_count (tags_count p + 1) p in
  if is_in_raw_context p then p
  else
    let p :=
      if mem tag raw_context_tags then set_is_in_raw_context true p else p in
    if negb (mem tag HTML_VOID_ELEMENTS) then
      set_tags_stack (tags_stack p ++ [tag]) p
    else p.

Definition superfluous_msg (tag : string) : string :=
  ("Superfluous closing tag for void element: </" ++ tag ++ ">")%string.

Definition unmatched_msg (tag : string) : string :=
  ("Unmatched closing tag: " ++ tag ++ " (stack is empty)")%string.

Definition mismatched_msg (expected_tag tag : string) : string :=
  ("Mismatched closing tag: expected </" ++ expected_tag
     ++ "> but got </" ++ tag ++ ">")%string.

Definition unclosed_msg (unclosed_tag : string) : string :=
  ("Unclosed tag: " ++ unclosed_tag)%string.

(** [self.errors.append((self.getpos(), msg))]. *)
Definition report (pos : Z * Z) (msg : string) (p : MyHTMLParser)
  : MyHTMLParser :=
  set_errors (errors p ++ [(At (fst pos) (snd pos), msg)]) p.

(** [handle_endtag(tag)]; [pos] is what [self.getpos()] returns during
    the call. *)
Definition handle_endtag (tag : string) (pos : Z * Z) (p : MyHTMLParser)
  : MyHTMLParser :=
  if is_in_raw_context p && negb (mem tag raw_context_tags) then p
  else
    let p :=
      if mem tag raw_context_tags then set_is_in_raw_context false p else p in
    if mem tag HTML_VOID_ELEMENTS then report pos (superfluous_msg tag) p
    else
      match peek (tags_stack p) with
      | None => report pos (unmatched_msg tag) p
      | Some expected_tag =>
          if String.eqb expected_tag tag then
            set_tags_stack (removelast (tags_stack p)) p
          else report pos (mismatched_msg expected_tag tag) p
      end.

(** [error(message)]. *)
Definition handle_error (message : string) (pos : Z * Z) (p : MyHTMLParser)
  : MyHTMLParser :=
  report pos message p.

(** What the tokenizer ([HTMLParser.feed]) delivers, in document order:
    a handler call together with the position [getpos()] has then. *)
Inductive TagEvent : Type :=
| Open (name : string) (pos : Z * Z)
| Close (name : string) (pos : Z * Z)
| LexError (message : string) (pos : Z * Z).

Definition dispatch (ev : TagEvent) (p : MyHTMLParser) : MyHTMLParser :=
  match ev with
  | Open name _ => handle_starttag name p
  | Close name pos => handle_endtag name pos p
  | LexError message pos => handle_error message pos p
  end.

(** The handler calls made by one [parser.feed(content)]. *)
Definition feed (events : list TagEvent) (p : MyHTMLParser) : MyHTMLParser :=
  fold_left (fun q ev => dispatch ev q) events p.

(** [stats], the dictionary [validate_file] returns. *)
Record Stats : Type := mkStats { stats_tags : nat; stats_errors : nat }.

(** The loop over [reversed(parser.tags_stack)] at the end of the HTML
    branch. *)
Definition unclosed_errors (stack : list string) : list error :=
  map (fun unclosed_tag => (At 0 0, unclosed_msg unclosed_tag)) (rev stack).

(** The HTML branch of [validate_file], after tokenizing. *)
Definition validate_html (events : list TagEvent) : list error * Stats :=
  let parser := feed events init in
  let errs := errors parser ++ unclosed_errors (tags_stack parser) in
  (errs, {| stats_tags := tags_count parser; stats_errors := length errs |}).

(** ** Exceptions *)

(** [ET.ParseError]: [e.position] and [str(e)]. *)
Record ParseError : Type := mkParseError {
  position : Z * Z;
  message_of : string
}.

(** The exceptions that can leave the modelled functions. *)
Inductive exn : Type :=
| ParseErrorExn (e : ParseError)
| AttributeError (attribute : string)
| UnicodeDecodeErrorExn
| OtherException (description : string).

Inductive result (A : Type) : Type :=
| Ok (a : A)
| Raise (e : exn).
Arguments Ok {A} a.
Arguments Raise {A} e.

Definition bind {A B : Type} (m : result A) (k : A -> result B) : result B :=
  match m with
  | Ok a => k a
  | Raise e => Raise e
  end.

Notation "x <- m ;; k" := (bind m (fun x => k))
  (at level 61, m at next level, right associativity).

(** ** Element trees *)

(** An [xml.etree.ElementTree.Element]: tag, attribute dictionary and
    child elements in document order (text and tail are never read). *)
#[warnings="-register-all"]
Inductive Element : Type :=
| Elem (tag : string) (attrib : list (string * string))
       (children : list Element).

Definition tag_of (e : Element) : string :=
  match e with Elem t _ _ => t end.

Definition attrib_of (e : Element) : list (string * string) :=
  match e with Elem _ a _ => a end.

Definition children_of (e : Element) : list Element :=
  match e with Elem _ _ c => c end.

(** [elem.get(key)]. *)
Fixpoint get (key : string) (attrib : list (string * string))
  : option string :=
  match attrib with
  | [] => None
  | (k, v) :: rest => if String.eqb k key then Some v else get key rest
  end.

(** [list(root.iter())]: the element and all its descendants, in
    document order. *)
Fixpoint iter (e : Element) : list Element :=
  match e with
  | Elem _ _ children => e :: flat_map iter children
  end.

(** [q.find(tag)]: the first direct child with that tag, if any. *)
Definition find_child (tag : string) (q : Element) : option Element :=
  find (fun c => String.eqb (tag_of c) tag) (children_of q).

(** [q.findall(tag)]: the direct children with that tag. *)
Definition findall_children (tag : string) (q : Element) : list Element :=
  filter (fun c => String.eqb (tag_of c) tag) (children_of q).

Definition is_multichoice_question (e : Element) : bool :=
  String.eqb (tag_of e) "question"
  && match get "type" (attrib_of e) with
     | Some v => String.eqb v "multichoice"
     | None => false
     end.

(** [root.findall(".//question[@type='multichoice']")]: the matching
    elements at any depth below [root], in document order. *)
Definition findall_questions (root : Element) : list Element :=
  filter is_multichoice_question (flat_map iter (children_of root)).

Definition missing_name_msg : string :=
  "Missing <name> tag in multichoice question".

Definition missing_questiontext_msg : string :=
  "Missing <questiontext> tag in multichoice question".

Definition no_answer_msg : string :=
  "No <answer> tags found in multichoice question".

Definition is_None {A : Type} (o : option A) : bool :=
  match o with None => true | Some _ => false end.

Definition is_empty {A : Type} (l : list A) : bool :=
  match l with [] => true | _ :: _ => false end.

Section SchemaRule.

(** The attribute access [q.sourceline] of the tree library in use;
    [None] stands for an object without that attribute. *)
Variable sourceline_of : Element -> option Z.

Definition getattr_sourceline (q : Element) : result Z :=
  match sourceline_of q with
  | Some line => Ok line
  | None => Raise (AttributeError "sourceline")
  end.

(** [errors.append((q.sourceline, msg))]. *)
Definition append_error (q : Element) (msg : string) (errs : list error)
  : result (list error) :=
  line <- getattr_sourceline q ;;
  Ok (errs ++ [(Line line, msg)]).

(** The body of the [for q in questions] loop. *)
Definition check_question (q : Element) (errs : list error)
  : result (list error) :=
  errs <- (if is_None (find_child "name" q)
           then append_error q missing_name_msg errs else Ok errs) ;;
  errs <- (if is_None (find_child "questiontext" q)
           then append_error q missing_questiontext_msg errs
           else Ok errs) ;;
  let answers := findall_children "answer" q in
  if is_empty answers then append_error q no_answer_msg errs else Ok errs.

Fixpoint check_questions (questions : list Element) (errs : list error)
  : result (list error) :=
  match questions with
  | [] => Ok errs
  | q :: rest => errs <- check_question q errs ;; check_questions rest errs
  end.

(** [validate_moodle_mc(root)]. *)
Definition validate_moodle_mc (root : Element) : result (list error) :=
  check_questions (findall_questions root) [].

End SchemaRule.

(** Elements built by [xml.etree.ElementTree] (the [ET] of the source)
    have the attributes [tag], [attrib], [text] and [tail] only;
    [sourceline] is an attribute of lxml elements. *)
Definition ET_sourceline (e : Element) : option Z := None.

(** ** Reading files *)

(** The outcome of [open(file_path, 'r', encoding=...)] followed by
    [f.read(size)]: the decoded characters, a [UnicodeDecodeError], or
    any other exception. *)
Inductive read_result : Type :=
| ReadOk (text : string)
| DecodeFailed
| ReadFailed (description : string).

(** ** Format detection *)

(** Python's [needle in s] on strings. *)
Fixpoint contains (needle s : string) : bool :=
  if String.prefix needle s then true
  else match s with
       | EmptyString => false
       | String _ s' => contains needle s'
       end.

(** The [if]/[elif]/[else] chain of [detect_format]. *)
Definition sniff (content : string) : string :=
  if contains "<html" content then "HTML"
  else if contains "<quiz" content || contains "<question" content then "XML"
  else "Unknown".

(** [schema_option == 'moodlemc']; the option is [None] when [--format]
    is not given. *)
Definition is_moodlemc (schema_option : option string) : bool :=
  match schema_option with
  | Some s => String.eqb s "moodlemc"
  | None => false
  end.

Section Files.

(** [read_file file_path encoding size]: the file system and codecs;
    [size = None] reads the whole file. *)
Variable read_file : string -> string -> option nat -> read_result.

(** [str.lower()]. *)
Variable lower : string -> string.

(** The [try]/[except UnicodeDecodeError] block of [detect_format]. *)
Definition read_head (file_path : string) : result string :=
  match read_file file_path "utf-8" (Some 200) with
  | ReadOk text => Ok (lower text)
  | DecodeFailed =>
      match read_file file_path "latin1" (Some 200) with
      | ReadOk text => Ok (lower text)
      | DecodeFailed => Raise UnicodeDecodeErrorExn
      | ReadFailed d => Raise (OtherException d)
      end
  | ReadFailed d => Raise (OtherException d)
  end.

(** [detect_format(file_path)]. *)
Definition detect_format (file_path : string) : result string :=
  content <- read_head file_path ;;
  Ok (sniff content).

(** ** The validation session *)

(** [parser.feed(content)]: the handler calls a text gives rise to, or
    the exception that leaves [feed] (the parser state is then lost with
    the call of [validate_file]). *)
Variable tokenize : string -> result (list TagEvent).

(** [ET.fromstring]. *)
Variable fromstring : string -> result Element.

(** The function called as [validate_moodle_mc(root)]. *)
Variable checker : Element -> result (list error).

(** The [except ET.ParseError as e] handler; [tags_so_far] is
    [stats['tags']] at the time the exception is raised, and [errors] is
    still the empty list it was initialised to. *)
Definition on_parse_error (tags_so_far : nat) (e : ParseError)
  : list error * Stats :=
  ([(At (fst (position e)) (snd (position e)), message_of e)],
   {| stats_tags := tags_so_far; stats_errors := 1 |}).

(** The [elif file_format == 'XML'] branch. *)
Definition validate_xml (content : string) (schema_option : option string)
  : result (list error * Stats) :=
  match fromstring content with
  | Raise (ParseErrorExn e) => Ok (on_parse_error 0 e)
  | Raise other => Raise other
  | Ok root =>
      let tags := length (iter root) in
      if is_moodlemc schema_option then
        match checker root with
        | Ok errs =>
            Ok (errs, {| stats_tags := tags; stats_errors := length errs |})
        | Raise (ParseErrorExn e) => Ok (on_parse_error tags e)
        | Raise other => Raise other
        end
      else Ok ([], {| stats_tags := tags; stats_errors := 0 |})
  end.

(** [validate_file(file_path, file_format, schema_option, ...)]: the
    diagnostics it prints and the statistics it returns.  The flags
    [color], [stat] and [is_batch_mode] only shape the printed text. *)
Definition validate_file_with (file_path file_format : string)
  (schema_option : option string) : result (list error * Stats) :=
  let dialects (content : string) :=
    if String.eqb file_format "HTML" then
      events <- tokenize content ;;
      Ok (validate_html events)
    else if String.eqb file_format "XML" then
      validate_xml content schema_option
    else Ok ([], {| stats_tags := 0; stats_errors := 0 |}) in
  match read_file file_path "utf-8" None with
  | ReadOk content => dialects content
  | DecodeFailed =>
      match read_file file_path "latin1" None with
      | ReadOk content => dialects content
      | DecodeFailed => Raise UnicodeDecodeErrorExn
      | ReadFailed d => Raise (OtherException d)
      end
  | ReadFailed _ => Ok ([], {| stats_tags := 0; stats_errors := 1 |})
  end.

End Files.

(** [validate_file] as the source has it: the checker is
    [validate_moodle_mc] on [ET] elements. *)
Definition validate_file
  (read_file : string -> string -> option nat -> read_result)
  (tokenize : string -> result (list TagEvent))
  (fromstring : string -> result Element)
  (file_path file_format : string) (schema_option : option string)
  : result (list error * Stats) :=
  validate_file_with read_file tokenize fromstring
    (validate_moodle_mc ET_sourceline) file_path file_format schema_option.

(** ** Vocabulary of the properties *)

(** No name of the stack is a void element. *)
Definition void_free (stack : list string) : Prop :=
  Forall (fun t => mem t HTML_VOID_ELEMENTS = false) stack.

(** The states a parser can be in after some input. *)
Definition reachable (p : MyHTMLParser) : Prop :=
  exists events, p = feed events init.

Definition is_open (ev : TagEvent) : bool :=
  match ev with Open _ _ => true | _ => false end.

(** The number of [Open] events of an input. *)
Definition count_opens (events : list TagEvent) : nat :=
  length (filter is_open events).

(** Events that are markup nested in a raw span: any open tag, and any
    close tag whose name is not a raw-content name. *)
Definition nested_in_raw (ev : TagEvent) : Prop :=
  match ev with
  | Open _ _ => True
  | Close name _ => mem name raw_context_tags = false
  | LexError _ _ => False
  end.


(** The diagnostics the multichoice rule asks for at one question that
    sits at line [line]. *)
Definition expected_diagnostics (line : Z) (q : Element) : list error :=
  (if is_None (find_child "name" q)
   then [(Line line, "Missing <name> tag in multichoice question")]
   else [])
  ++ (if is_None (find_child "questiontext" q)
      then [(Line line, "Missing <questiontext> tag in multichoice question")]
      else [])
  ++ (if is_empty (findall_children "answer" q)
      then [(Line line, "No <answer> tags found in multichoice question")]
      else []).

(** The attribute access of a tree library whose elements carry their
    source line, [line_of] giving the line of each. *)
Definition located (line_of : Element -> Z) (q : Element) : option Z :=
  Some (line_of q).

(** A question the multichoice rule has nothing to say about. *)
Definition complete_question (q : Element) : bool :=
  negb (is_None (find_child "name" q))
  && negb (is_None (find_child "questiontext" q))
  && negb (is_empty (findall_children "answer" q)).

(** Event sequences of properly nested markup: nothing; a void element
    (an open tag alone); an ordinary element around properly nested
    content; a raw-content element around open tags of any name and
    close tags of names that are not raw-content names (so that the first
    close tag of a raw-content name after its open tag is its own); and
    one such sequence after another.  No lexical error occurs in them. *)
Inductive well_nested : list TagEvent -> Prop :=
| wn_nil : well_nested []
| wn_void (name : string) (pos : Z * Z) :
    classify name = Void -> well_nested [Open name pos]
| wn_element (name : string) (pos pos' : Z * Z) (inner : list TagEvent) :
    classify name = Ordinary ->
    well_nested inner ->
    well_nested (Open name pos :: inner ++ [Close name pos'])
| wn_raw (name : string) (pos pos' : Z * Z) (inner : list TagEvent) :
    classify name = RawContent ->
    Forall nested_in_raw inner ->
    well_nested (Open name pos :: inner ++ [Close name pos'])
| wn_app (xs ys : list TagEvent) :
    well_nested xs -> well_nested ys -> well_nested (xs ++ ys).

(** While the raw flag is set, the top of the stack is a raw-content
    name. *)
Definition raw_span_open (p : MyHTMLParser) : Prop :=
  is_in_raw_context p = true ->
  exists opener,
    peek (tags_stack p) = Some opener
    /\ mem opener raw_context_tags = true.

(** ** Batch scanning and the command line *)

(** [s.endswith(suffix)]. *)
Fixpoint endswith (s suffix : string) : bool :=
  if String.eqb s suffix then true
  else match s with
       | EmptyString => false
       | String _ s' => endswith s' suffix
       end.

(** The truth value Python gives to an optional command-line string:
    [None] and the empty string are false. *)
Definition truthy (o : option string) : bool :=
  match o with
  | Some s => negb (String.eqb s EmptyString)
  | None => false
  end.

(** [global_summary], the dictionary of the whole scan. *)
Record GlobalSummary : Type := mkGlobalSummary {
  files_scanned : nat;
  files_with_errors : nat;
  total_errors : nat;
  total_tags : nat
}.

(** [dir_summary], the dictionary of one directory of a recursive scan. *)
Record DirSummary : Type := mkDirSummary {
  dir_files_scanned : nat;
  dir_files_with_errors : nat;
  dir_total_errors : nat
}.

Definition global_summary_init : GlobalSummary :=
  {| files_scanned := 0; files_with_errors := 0; total_errors := 0;
     total_tags := 0 |}.

Definition dir_summary_init : DirSummary :=
  {| dir_files_scanned := 0; dir_files_with_errors := 0;
     dir_total_errors := 0 |}.

(** The four updates of [global_summary] after one [validate_file]. *)
Definition add_to_global (stats : Stats) (g : GlobalSummary) : GlobalSummary :=
  {| files_scanned := files_scanned g + 1;
     total_tags := total_tags g + stats_tags stats;
     total_errors := total_errors g + stats_errors stats;
     files_with_errors :=
       if Nat.ltb 0 (stats_errors stats) then files_with_errors g + 1
       else files_with_errors g |}.

(** The three updates of [dir_summary] after one [validate_file]. *)
Definition add_to_dir (stats : Stats) (d : DirSummary) : DirSummary :=
  {| dir_files_scanned := dir_files_scanned d + 1;
     dir_total_errors := dir_total_errors d + stats_errors stats;
     dir_files_with_errors :=
       if Nat.ltb 0 (stats_errors stats) then dir_files_with_errors d + 1
       else dir_files_with_errors d |}.

(** [args], what [parser.parse_args()] returned, as far as it steers
    [main] ([--stat] and [--color] only shape the printed text). *)
Record Args : Type := mkArgs {
  args_h : bool;
  args_help : bool;
  args_input : option string;
  args_all : option string;
  args_recursive : bool;
  args_format : option string;
  args_informat : option string
}.

(** How [main] ends once [parse_args] has returned: by [sys.exit(code)]
    ([sys.exit()] is status 0), after a batch scan (with the
    format handed to [validate_file], the summary of each directory that
    had matching files, and the global summary), or after validating a
    single file (with the format handed to [validate_file] and what that
    call produced). *)
Inductive Outcome : Type :=
| Exited (code : Z)
| Scanned (file_format : string) (dirs : list (string * DirSummary))
          (summary : GlobalSummary)
| Validated (file_format : string) (outcome : list error * Stats).

Section Batch.

(** [str.lower()]. *)
Variable lower : string -> string.

(** [os.path.join], [os.listdir] (which raises when the directory cannot
    be listed), [os.path.isfile] and [os.walk] (the list of its
    [(dirpath, dirnames, filenames)] triples; with its default [onerror]
    it skips what it cannot list). *)
Variable join : string -> string -> string.
Variable listdir : string -> result (list string).
Variable isfile : string -> bool.
Variable walk : string -> list (string * list string * list string).

(** [validate file_path file_format]: the statistics the call
    [validate_file(file_path, file_format, ..., is_batch_mode=True)]
    returns, or the exception that leaves it. *)
Variable validate : string -> string -> result Stats.

(** [f.lower().endswith(extensions)], [extensions] being a tuple. *)
Definition has_extension (extensions : list string) (f : string) : bool :=
  existsb (endswith (lower f)) extensions.

(** One turn of the flat loop: [try] the file, count it; [except
    Exception] report it and go on. *)
Definition scan_file (file_format : string) (g : GlobalSummary)
  (file_path : string) : GlobalSummary :=
  match validate file_path file_format with
  | Ok stats => add_to_global stats g
  | Raise _ => g
  end.

(** The flat loop over [files_to_scan]. *)
Definition scan_files (file_format : string) (files : list string)
  (g : GlobalSummary) : GlobalSummary :=
  fold_left (scan_file file_format) files g.

(** [files_to_scan] of the flat scan; the loop over [os.listdir] is not
    inside any [try]. *)
Definition files_to_scan (input : string) (extensions : list string)
  : result (list string) :=
  names <- listdir input ;;
  Ok (map (join input)
        (filter (fun f => isfile (join input f) && has_extension extensions f)
           names)).

(** One turn of the inner loop of the recursive scan. *)
Definition scan_file_in_dir (file_format : string)
  (dg : DirSummary * GlobalSummary) (file_path : string)
  : DirSummary * GlobalSummary :=
  match validate file_path file_format with
  | Ok stats => (add_to_dir stats (fst dg), add_to_global stats (snd dg))
  | Raise _ => dg
  end.

(** [files_in_this_dir]. *)
Definition files_in_this_dir (extensions : list string) (dirpath : string)
  (filenames : list string) : list string :=
  map (join dirpath) (filter (has_extension extensions) filenames).

(** One turn of the loop over [os.walk]. *)
Definition scan_dir (extensions : list string) (file_format : string)
  (acc : list (string * DirSummary) * GlobalSummary)
  (entry : string * list string * list string)
  : list (string * DirSummary) * GlobalSummary :=
  let '(dirpath, _, filenames) := entry in
  let files := files_in_this_dir extensions dirpath filenames in
  if is_empty files then acc
  else
    let dg := fold_left (scan_file_in_dir file_format) files
                (dir_summary_init, snd acc) in
    (fst acc ++ [(dirpath, fst dg)], snd dg).

(** The recursive scan. *)
Definition scan_recursive (input : string) (extensions : list string)
  (file_format : string) : list (string * DirSummary) * GlobalSummary :=
  fold_left (scan_dir extensions file_format) (walk input)
    ([], global_summary_init).

End Batch.

Section Main.

Variable read_file : string -> string -> option nat -> read_result.
Variable lower : string -> string.
Variable join : string -> string -> string.
Variable listdir : string -> result (list string).
Variable isfile : string -> bool.
Variable walk : string -> list (string * list string * list string).

(** [os.path.exists] and [os.path.isdir]. *)
Variable path_exists : string -> bool.
Variable isdir : string -> bool.

(** The function called as [validate_file(file_path, file_format,
    args.format, ...)]: what it lists and returns, or the exception that
    leaves it. *)
Variable validate :
  string -> string -> option string -> result (list error * Stats).

(** The string [args.informat] is when it is true. *)
Definition the_informat (args : Args) : string :=
  match args_informat args with
  | Some f => f
  | None => EmptyString
  end.

(** [args.all == 'h']. *)
Definition all_is_h (args : Args) : bool :=
  match args_all args with
  | Some a => String.eqb a "h"
  | None => false
  end.

(** [extensions] and [scan_format] of a scan. *)
Definition scan_setup (args : Args) : list string * string :=
  if all_is_h args then ([".html"; ".htm"], "HTML")
  else ([".xml"], "XML").

(** The format of the [validate_file] calls of a scan:
    [args.informat if args.informat else scan_format]. *)
Definition scan_file_format (args : Args) : string :=
  if truthy (args_informat args) then the_informat args
  else snd (scan_setup args).

(** The format of the [validate_file] call of single-file mode:
    [args.informat if args.informat else detect_format(args.input)], with
    ['Unknown'] replaced by ['XML']. *)
Definition single_file_format (args : Args) (input : string)
  : result string :=
  file_format <-
    (if truthy (args_informat args) then Ok (the_informat args)
     else detect_format read_file lower input) ;;
  Ok (if String.eqb file_format "Unknown" then "XML" else file_format).

(** The statistics of one [validate_file] call of a scan. *)
Definition validate_stats (args : Args) (file_path file_format : string)
  : result Stats :=
  r <- validate file_path file_format (args_format args) ;;
  Ok (snd r).

(** [main()], from the return of [parser.parse_args()] on.  The colour
    set-up and everything printed are left out. *)
Definition main_with (args : Args) : result Outcome :=
  if args_h args then Ok (Exited 0)
  else if args_help args then Ok (Exited 0)
  else
    match args_input args with
    | None => Ok (Exited 1)
    | Some input =>
        if negb (truthy (Some input)) then Ok (Exited 1)
        else if negb (path_exists input) then Ok (Exited 1)
        else if args_recursive args && negb (truthy (args_all args)) then
          Ok (Exited 1)
        else if truthy (args_all args) then
          if negb (isdir input) then Ok (Exited 1)
          else
            let extensions := fst (scan_setup args) in
            let file_format := scan_file_format args in
            if args_recursive args then
              let r := scan_recursive lower join walk (validate_stats args)
                         input extensions file_format in
              Ok (Scanned file_format (fst r) (snd r))
            else
              files <- files_to_scan lower join listdir isfile input
                         extensions ;;
              Ok (Scanned file_format []
                    (scan_files (validate_stats args) file_format files
                       global_summary_init))
        else if isdir input then Ok (Exited 1)
        else
          file_format <- single_file_format args input ;;
          r <- validate input file_format (args_format args) ;;
          Ok (Validated file_format r)
    end.

End Main.

(** [main] as the source has it: the function called is
    [validate_file]. *)
Definition main
  (read_file : string -> string -> option nat -> read_result)
  (lower : string -> string)
  (tokenize : string -> result (list TagEvent))
  (fromstring : string -> result Element)
  (join : string -> string -> string)
  (listdir : string -> result (list string))
  (isfile : string -> bool)
  (walk : string -> list (string * list string * list string))
  (path_exists isdir : string -> bool)
  (args : Args) : result Outcome :=
  main_with read_file lower join listdir isfile walk path_exists isdir
    (validate_file read_file tokenize fromstring) args.

(** The statistics of the files of a scan whose validation returned, in
    scan order; a file whose validation raised contributes none. *)
Definition validated_stats (validate : string -> string -> result Stats)
  (file_format : string) (files : list string) : list Stats :=
  flat_map (fun file_path =>
              match validate file_path file_format with
              | Ok stats => [stats]
              | Raise _ => []
              end) files.

(** All the files a recursive scan validates, in scan order. *)
Definition files_of_walk (lower : string -> string)
  (join : string -> string -> string) (extensions : list string)
  (entries : list (string * list string * list string)) : list string :=
  flat_map (fun entry : string * list string * list string =>
              files_in_this_dir lower join extensions
                (fst (fst entry)) (snd entry)) entries.

(** What a summary must satisfy to make sense. *)
Definition coherent (g : GlobalSummary) : Prop :=
  files_with_errors g <= files_scanned g
  /\ files_with_errors g <= total_errors g
  /\ (files_with_errors g = 0 <-> total_errors g = 0).

(** The inputs after which the stack is [stack] and the raw flag is
    [raw] without any diagnostic so far: properly nested markup,
    interrupted by the open tag of each element still on the stack; when
    the flag is set, the last of them is a raw-content element and only
    nested tags follow it. *)
Inductive open_prefix : list string -> bool -> list TagEvent -> Prop :=
| op_closed (w : list TagEvent) :
    well_nested w -> open_prefix [] false w
| op_element (stack : list string) (events w : list TagEvent)
    (name : string) (pos : Z * Z) :
    open_prefix stack false events ->
    classify name = Ordinary ->
    well_nested w ->
    open_prefix (stack ++ [name]) false (events ++ Open name pos :: w)
| op_raw (stack : list string) (events inner : list TagEvent)
    (name : string) (pos : Z * Z) :
    open_prefix stack false events ->
    classify name = RawContent ->
    Forall nested_in_raw inner ->
    open_prefix (stack ++ [name]) true (events ++ Open name pos :: inner).

(** The diagnostics the multichoice rule asks for at the questions
    [questions], each at the source line the tree library gives for its
    question. *)
Definition expected_report (sourceline_of : Element -> option Z)
  (questions : list Element) : list error :=
  flat_map (fun q =>
              match sourceline_of q with
              | Some line => expected_diagnostics line q
              | None => []
              end) questions.



(** The arguments with which [main] gets as far as a scan of the
    directory [input]. *)
Definition scan_mode (path_exists isdir : string -> bool) (args : Args)
  (input : string) : Prop :=
  args_h args = false /\ args_help args = false
  /\ args_input args = Some input /\ input <> EmptyString
  /\ path_exists input = true
  /\ truthy (args_all args) = true
  /\ isdir input = true.

(** The arguments with which [main] gets as far as the validation of the
    single file [input]. *)
Definition single_file_mode (path_exists isdir : string -> bool)
  (args : Args) (input : string) : Prop :=
  args_h args = false /\ args_help args = false
  /\ args_input args = Some input /\ input <> EmptyString
  /\ path_exists input = true
  /\ truthy (args_all args) = false
  /\ args_recursive args = false
  /\ isdir input = false.

(** * Properties *)

(** ** Scenarios of the specification *)

Example scenario_p_br :
  validate_html [Open "p" (1, 0); Open "br" (1, 8); Close "p" (1, 17)]%Z
  = ([], {| stats_tags := 2; stats_errors := 0 |}).
Proof. reflexivity. Qed.

Example scenario_div_span :
  validate_html [Open "div" (1, 0); Open "span" (1, 5); Close "div" (1, 15)]%Z
  = ([ (At 1 15, "Mismatched closing tag: expected </span> but got </div>");
       (At 0 0, "Unclosed tag: span"); (At 0 0, "Unclosed tag: div") ],
     {| stats_tags := 2; stats_errors := 3 |}).
Proof. reflexivity. Qed.

(** ** The stack as a list with its top at the end *)

Lemma peek_last (s : list string) (x : string) : peek (s ++ [x]) = Some x.
Proof.
  induction s as [|y s IH]; [reflexivity|].
  simpl. destruct (s ++ [x]) eqn:E.
  - destruct s; discriminate.
  - exact IH.
Qed.

Lemma peek_None (s : list string) : peek s = None -> s = [].
Proof.
  destruct s as [|x s] using rev_ind; [reflexivity|].
  rewrite peek_last. discriminate.
Qed.

Lemma peek_Some (s : list string) (t : string) :
  peek s = Some t -> s = removelast s ++ [t].
Proof.
  destruct s as [|x s] using rev_ind; [discriminate|].
  rewrite peek_last, removelast_last. congruence.
Qed.

(** ** The two tables do not overlap *)

Lemma mem_In (t : string) (s : list string) : mem t s = true <-> In t s.
Proof.
  unfold mem. rewrite existsb_exists. split.
  - intros [x [Hx E]]. apply String.eqb_eq in E. now subst.
  - intros H. exists t. split; [assumption | apply String.eqb_refl].
Qed.

Lemma raw_not_void (t : string) :
  mem t raw_context_tags = true -> mem t HTML_VOID_ELEMENTS = false.
Proof.
  rewrite mem_In. simpl.
  intros [E | [E | [E | [E | []]]]]; subst; reflexivity.
Qed.

Lemma classify_Void (t : string) :
  classify t = Void <-> mem t HTML_VOID_ELEMENTS = true.
Proof.
  unfold classify.
  destruct (mem t HTML_VOID_ELEMENTS); [tauto|].
  destruct (mem t raw_context_tags); split; discriminate.
Qed.

Lemma classify_RawContent (t : string) :
  classify t = RawContent <-> mem t raw_context_tags = true.
Proof.
  unfold classify. split.
  - destruct (mem t HTML_VOID_ELEMENTS); [discriminate|].
    destruct (mem t raw_context_tags); [reflexivity | discriminate].
  - intros H. rewrite (raw_not_void t H), H. reflexivity.
Qed.

Lemma classify_Ordinary (t : string) :
  classify t = Ordinary <->
  mem t HTML_VOID_ELEMENTS = false /\ mem t raw_context_tags = false.
Proof.
  unfold classify.
  destruct (mem t HTML_VOID_ELEMENTS); [split; [discriminate | intros []; discriminate]|].
  destruct (mem t raw_context_tags); split; try discriminate; try tauto.
  intros []; discriminate.
Qed.

(** ** Running the parser *)

Lemma feed_cons (ev : TagEvent) (events : list TagEvent) (p : MyHTMLParser) :
  feed (ev :: events) p = feed events (dispatch ev p).
Proof. reflexivity. Qed.

Lemma feed_app (xs ys : list TagEvent) (p : MyHTMLParser) :
  feed (xs ++ ys) p = feed ys (feed xs p).
Proof. unfold feed. apply fold_left_app. Qed.

(** ** What one handler call does to each attribute *)

Lemma handle_starttag_in_raw (tag : string) (p : MyHTMLParser) :
  is_in_raw_context p = true ->
  handle_starttag tag p = set_tags_count (tags_count p + 1) p.
Proof. intros H. unfold handle_starttag. simpl. now rewrite H. Qed.

Lemma handle_starttag_stack (tag : string) (p : MyHTMLParser) :
  tags_stack (handle_starttag tag p) = tags_stack p
  \/ (mem tag HTML_VOID_ELEMENTS = false
      /\ tags_stack (handle_starttag tag p) = tags_stack p ++ [tag]).
Proof.
  unfold handle_starttag. simpl.
  destruct (is_in_raw_context p); [now left|].
  destruct (mem tag HTML_VOID_ELEMENTS); simpl;
    destruct (mem tag raw_context_tags); simpl;
    first [ now left | now right ].
Qed.

Lemma handle_endtag_stack (tag : string) (pos : Z * Z) (p : MyHTMLParser) :
  tags_stack (handle_endtag tag pos p) = tags_stack p
  \/ (peek (tags_stack p) = Some tag
      /\ tags_stack (handle_endtag tag pos p) = removelast (tags_stack p)).
Proof.
  unfold handle_endtag.
  destruct (is_in_raw_context p && negb (mem tag raw_context_tags));
    [now left|].
  destruct (mem tag raw_context_tags), (mem tag HTML_VOID_ELEMENTS); simpl;
    try (now left);
    (destruct (peek (tags_stack p)) as [top|] eqn:P; [|now left]);
    (destruct (String.eqb top tag) eqn:Q; [|now left]);
    apply String.eqb_eq in Q; subst top; now right.
Qed.

Lemma handle_error_stack (message : string) (pos : Z * Z) (p : MyHTMLParser) :
  tags_stack (handle_error message pos p) = tags_stack p.
Proof. reflexivity. Qed.

Lemma handle_starttag_count (tag : string) (p : MyHTMLParser) :
  tags_count (handle_starttag tag p) = tags_count p + 1.
Proof.
  unfold handle_starttag. simpl.
  destruct (is_in_raw_context p); [reflexivity|].
  destruct (mem tag HTML_VOID_ELEMENTS), (mem tag raw_context_tags);
    reflexivity.
Qed.

Lemma handle_endtag_count (tag : string) (pos : Z * Z) (p : MyHTMLParser) :
  tags_count (handle_endtag tag pos p) = tags_count p.
Proof.
  unfold handle_endtag.
  destruct (is_in_raw_context p && negb (mem tag raw_context_tags));
    [reflexivity|].
  destruct (mem tag raw_context_tags), (mem tag HTML_VOID_ELEMENTS); simpl;
    try reflexivity;
    (destruct (peek (tags_stack p)) as [top|]; [|reflexivity]);
    destruct (String.eqb top tag); reflexivity.
Qed.

(** ** Void names stay off the stack *)

Lemma void_free_removelast (s : list string) :
  void_free s -> void_free (removelast s).
Proof.
  unfold void_free. rewrite !Forall_forall.
  intros H x Hx. apply H.
  destruct s as [|y s]; [destruct Hx|].
  assert (N : y :: s <> []) by discriminate.
  rewrite (app_removelast_last y N). apply in_or_app. now left.
Qed.

Lemma dispatch_void_free (ev : TagEvent) (p : MyHTMLParser) :
  void_free (tags_stack p) -> void_free (tags_stack (dispatch ev p)).
Proof.
  intros H. destruct ev as [name pos | name pos | message pos]; simpl.
  - destruct (handle_starttag_stack name p) as [E | [V E]]; rewrite E.
    + exact H.
    + apply Forall_app. split; [exact H|]. now constructor.
  - destruct (handle_endtag_stack name pos p) as [E | [_ E]]; rewrite E.
    + exact H.
    + now apply void_free_removelast.
  - exact H.
Qed.

Lemma feed_void_free (events : list TagEvent) (p : MyHTMLParser) :
  void_free (tags_stack p) -> void_free (tags_stack (feed events p)).
Proof.
  revert p. induction events as [|ev events IH]; intros p H; [exact H|].
  rewrite feed_cons. apply IH. now apply dispatch_void_free.
Qed.

Lemma reachable_void_free (p : MyHTMLParser) :
  reachable p -> void_free (tags_stack p).
Proof.
  intros [events ->]. apply feed_void_free. constructor.
Qed.

(** C9.  The open stack never contains a void element name: the empty
    stack of a fresh parser has none, every handler call (open tag, close
    tag or lexical error) keeps it that way, and so the stack of every
    state reached from a fresh parser is free of void names. *)
Theorem stack_never_contains_void :
  void_free (tags_stack init)
  /\ (forall (ev : TagEvent) (p : MyHTMLParser),
        void_free (tags_stack p) -> void_free (tags_stack (dispatch ev p)))
  /\ (forall (events : list TagEvent) (t : string),
        In t (tags_stack (feed events init)) -> classify t <> Void).
Proof.
  split; [constructor|]. split; [exact dispatch_void_free|].
  intros events t Hin Hv. apply classify_Void in Hv.
  pose proof (feed_void_free events init (Forall_nil _)) as F.
  unfold void_free in F. rewrite Forall_forall in F.
  specialize (F t Hin). congruence.
Qed.

Lemma stack_never_contains_void_witness :
  void_free (tags_stack (dispatch (Close "span" (1, 5)%Z)
                           (feed [Open "div" (1, 0)%Z] init)))
  /\ classify "div" <> Void.
Proof.
  split.
  - apply (proj1 (proj2 stack_never_contains_void)).
    repeat constructor.
  - apply (proj2 (proj2 stack_never_contains_void) [Open "div" (1, 0)%Z]).
    simpl. left. reflexivity.
Defined.

(** ** Counting open tags *)

Lemma dispatch_count (ev : TagEvent) (p : MyHTMLParser) :
  tags_count (dispatch ev p)
  = tags_count p + (if is_open ev then 1 else 0).
Proof.
  destruct ev as [name pos | name pos | message pos]; simpl.
  - apply handle_starttag_count.
  - rewrite handle_endtag_count. lia.
  - lia.
Qed.

Lemma feed_count (events : list TagEvent) (p : MyHTMLParser) :
  tags_count (feed events p) = tags_count p + count_opens events.
Proof.
  revert p. induction events as [|ev events IH]; intros p.
  - unfold count_opens. simpl. lia.
  - rewrite feed_cons, IH, dispatch_count. unfold count_opens. simpl.
    destruct (is_open ev); simpl; lia.
Qed.

(** C6.  Every open tag adds exactly one to the tag counter, whatever the
    state (inside a raw span or not) and whatever the name (void, raw or
    ordinary); close tags and lexical errors leave the counter alone; so
    the tag count returned for an input is its number of open tags. *)
Theorem tag_count_is_number_of_opens :
  (forall (name : string) (pos : Z * Z) (p : MyHTMLParser),
      tags_count (dispatch (Open name pos) p) = tags_count p + 1)
  /\ (forall (name : string) (pos : Z * Z) (p : MyHTMLParser),
        tags_count (dispatch (Close name pos) p) = tags_count p)
  /\ (forall (message : string) (pos : Z * Z) (p : MyHTMLParser),
        tags_count (dispatch (LexError message pos) p) = tags_count p)
  /\ (forall events : list TagEvent,
        stats_tags (snd (validate_html events)) = count_opens events).
Proof.
  repeat split; intros.
  - apply handle_starttag_count.
  - apply handle_endtag_count.
  - unfold validate_html. simpl. now rewrite feed_count.
Qed.

(** ** End of input *)

Lemma unclosed_errors_length (stack : list string) :
  length (unclosed_errors stack) = length stack.
Proof. unfold unclosed_errors. now rewrite length_map, length_rev. Qed.

Lemma unclosed_errors_nth (stack : list string) (i : nat) (t : string) :
  i < length stack ->
  nth_error stack (length stack - 1 - i) = Some t ->
  nth_error (unclosed_errors stack) i = Some (At 0 0, unclosed_msg t).
Proof.
  intros Hi Ht. unfold unclosed_errors.
  rewrite nth_error_map, nth_error_rev.
  apply Nat.ltb_lt in Hi. rewrite Hi.
  replace (length stack - S i) with (length stack - 1 - i) by lia.
  now rewrite Ht.
Qed.

(** C5.  At end of input the diagnostics are the in-document ones
    followed by one unclosed-element diagnostic per name left on the
    stack and nothing else; the diagnostic at distance [i] behind the
    in-document ones is for the name at depth [i] below the stack top
    (most recently opened first), and carries the position [(0, 0)]. *)
Theorem unclosed_reported_from_top_to_bottom (events : list TagEvent) :
  let parser := feed events init in
  let stack := tags_stack parser in
  let reported := fst (validate_html events) in
  firstn (length (errors parser)) reported = errors parser
  /\ length reported = length (errors parser) + length stack
  /\ stats_errors (snd (validate_html events)) = length reported
  /\ (forall (i : nat) (t : string),
        i < length stack ->
        nth_error stack (length stack - 1 - i) = Some t ->
        nth_error reported (length (errors parser) + i)
        = Some (At 0 0, ("Unclosed tag: " ++ t)%string)).
Proof.
  unfold validate_html. cbn zeta. cbn [fst snd stats_errors].
  set (parser := feed events init).
  repeat split.
  - rewrite <- (Nat.add_0_r (length (errors parser))) at 1.
    rewrite firstn_app_2. simpl. apply app_nil_r.
  - now rewrite length_app, unclosed_errors_length.
  - intros i t Hi Ht.
    rewrite nth_error_app2 by lia.
    replace (length (errors parser) + i - length (errors parser)) with i
      by lia.
    now apply unclosed_errors_nth.
Qed.

Lemma unclosed_reported_from_top_to_bottom_witness :
  nth_error
    (fst (validate_html
            [Open "div" (1, 0)%Z; Open "span" (1, 5)%Z; Close "div" (1, 15)%Z]))
    (1 + 0)
  = Some (At 0 0, "Unclosed tag: span").
Proof.
  apply (proj2 (proj2 (proj2 (unclosed_reported_from_top_to_bottom
    [Open "div" (1, 0)%Z; Open "span" (1, 5)%Z; Close "div" (1, 15)%Z])))).
  - simpl. lia.
  - reflexivity.
Defined.

(** ** Inside a raw span *)

Lemma dispatch_nested_in_raw (ev : TagEvent) (p : MyHTMLParser) :
  is_in_raw_context p = true ->
  nested_in_raw ev ->
  errors (dispatch ev p) = errors p
  /\ tags_stack (dispatch ev p) = tags_stack p
  /\ is_in_raw_context (dispatch ev p) = true.
Proof.
  intros R N. destruct ev as [name pos | name pos | message pos]; simpl in *.
  - rewrite (handle_starttag_in_raw name p R). simpl. auto.
  - unfold handle_endtag. rewrite R, N. simpl. auto.
  - destruct N.
Qed.

Lemma feed_nested_in_raw (events : list TagEvent) (p : MyHTMLParser) :
  is_in_raw_context p = true ->
  Forall nested_in_raw events ->
  errors (feed events p) = errors p
  /\ tags_stack (feed events p) = tags_stack p
  /\ is_in_raw_context (feed events p) = true.
Proof.
  revert p. induction events as [|ev events IH]; intros p R N.
  - simpl. auto.
  - inversion N as [|? ? Nev Nrest]; subst.
    destruct (dispatch_nested_in_raw ev p R Nev) as (E & S & R').
    destruct (IH (dispatch ev p) R' Nrest) as (E' & S' & R'').
    rewrite feed_cons. repeat split; congruence.
Qed.

(** C4.  While the raw flag is set, an open tag of any name and a close
    tag of any name that is not a raw-content name add no diagnostic and
    leave the stack as it is (and the flag set); hence a whole run of such
    nested tags, matched or not, contributes no diagnostic. *)
Theorem nested_tags_in_raw_are_ignored (p : MyHTMLParser) :
  is_in_raw_context p = true ->
  (forall (name : string) (pos : Z * Z),
      errors (dispatch (Open name pos) p) = errors p
      /\ tags_stack (dispatch (Open name pos) p) = tags_stack p)
  /\ (forall (name : string) (pos : Z * Z),
        mem name raw_context_tags = false ->
        dispatch (Close name pos) p = p)
  /\ (forall events : list TagEvent,
        Forall nested_in_raw events ->
        errors (feed events p) = errors p
        /\ tags_stack (feed events p) = tags_stack p
        /\ is_in_raw_context (feed events p) = true).
Proof.
  intros R. repeat split.
  - now apply (dispatch_nested_in_raw (Open name pos) p R).
  - now apply (dispatch_nested_in_raw (Open name pos) p R).
  - intros name pos N. simpl. unfold handle_endtag. now rewrite R, N.
  - now apply feed_nested_in_raw.
  - now apply feed_nested_in_raw.
  - now apply feed_nested_in_raw.
Qed.

Lemma nested_tags_in_raw_are_ignored_witness :
  errors (feed [Open "b" (1, 8)%Z; Close "i" (1, 11)%Z; Close "b" (1, 15)%Z]
            (feed [Open "pre" (1, 0)%Z] init))
  = errors (feed [Open "pre" (1, 0)%Z] init).
Proof.
  apply (proj2 (proj2 (nested_tags_in_raw_are_ignored
                         (feed [Open "pre" (1, 0)%Z] init) eq_refl))).
  repeat constructor.
Defined.

(** ** Closing a void element *)

(** C2, as stated, fails: a close tag of a void element that arrives
    inside a raw span is dropped by the first test of [handle_endtag]. *)
Lemma void_close_inside_raw_is_silent :
  classify "br" = Void
  /\ reachable (feed [Open "pre" (1, 0)%Z] init)
  /\ errors (dispatch (Close "br" (1, 5)%Z) (feed [Open "pre" (1, 0)%Z] init))
     = errors (feed [Open "pre" (1, 0)%Z] init)
  /\ errors (feed [Open "pre" (1, 0)%Z; Close "br" (1, 5)%Z] init) = [].
Proof.
  repeat split. now exists [Open "pre" (1, 0)%Z].
Qed.

(** C2, amended.  For a close tag of a void element: outside a raw span
    it adds exactly one superfluous-close diagnostic, at the position of
    the tag, and changes nothing else, whatever the stack holds (empty or
    not, with or without that name); inside a raw span it is ignored. *)
Theorem void_close_outside_raw_is_superfluous
  (name : string) (pos : Z * Z) (p : MyHTMLParser) :
  classify name = Void ->
  (is_in_raw_context p = false ->
     errors (dispatch (Close name pos) p)
     = errors p
       ++ [(At (fst pos) (snd pos),
            ("Superfluous closing tag for void element: </" ++ name ++ ">")
              %string)]
     /\ tags_stack (dispatch (Close name pos) p) = tags_stack p
     /\ tags_count (dispatch (Close name pos) p) = tags_count p
     /\ is_in_raw_context (dispatch (Close name pos) p) = false)
  /\ (is_in_raw_context p = true -> dispatch (Close name pos) p = p).
Proof.
  intros V. apply classify_Void in V.
  assert (R : mem name raw_context_tags = false).
  { destruct (mem name raw_context_tags) eqn:E; [|reflexivity].
    apply raw_not_void in E. congruence. }
  simpl. unfold handle_endtag. rewrite R, V. split; intros H; rewrite H.
  - simpl. auto.
  - reflexivity.
Qed.

Lemma void_close_outside_raw_is_superfluous_witness :
  errors (dispatch (Close "br" (3, 4)%Z) (feed [Open "br" (1, 0)%Z] init))
  = [(At 3 4, "Superfluous closing tag for void element: </br>")].
Proof.
  apply (proj1 (void_close_outside_raw_is_superfluous "br" (3, 4)%Z
                  (feed [Open "br" (1, 0)%Z] init) eq_refl) eq_refl).
Defined.

(** ** A mismatched close tag *)

(** C3.  In a state reached from a fresh parser, outside a raw span and
    with [expected] on top of the stack, a close tag of an ordinary name
    other than [expected] adds exactly one mismatch diagnostic naming
    [expected] and the name, and changes neither the stack nor anything
    else; a close tag of [expected] right after it pops the stack without
    any further diagnostic. *)
Theorem mismatched_close_leaves_stack
  (p : MyHTMLParser) (name expected : string) (pos pos' : Z * Z) :
  reachable p ->
  is_in_raw_context p = false ->
  classify name = Ordinary ->
  peek (tags_stack p) = Some expected ->
  expected <> name ->
  let p1 := dispatch (Close name pos) p in
  let p2 := dispatch (Close expected pos') p1 in
  errors p1
  = errors p
    ++ [(At (fst pos) (snd pos),
         ("Mismatched closing tag: expected </" ++ expected
            ++ "> but got </" ++ name ++ ">")%string)]
  /\ tags_stack p1 = tags_stack p
  /\ tags_count p1 = tags_count p
  /\ is_in_raw_context p1 = false
  /\ tags_stack p2 ++ [expected] = tags_stack p
  /\ errors p2 = errors p1.
Proof.
  intros Hreach R O P N. apply classify_Ordinary in O. destruct O as [V W].
  assert (E : handle_endtag name pos p
              = report pos (mismatched_msg expected name) p).
  { unfold handle_endtag. rewrite R, W, V. simpl. rewrite P.
    apply String.eqb_neq in N. now rewrite N. }
  cbn zeta. simpl dispatch. rewrite E.
  assert (V' : mem expected HTML_VOID_ELEMENTS = false).
  { pose proof (reachable_void_free p Hreach) as F.
    unfold void_free in F. rewrite Forall_forall in F. apply F.
    rewrite (peek_Some _ _ P). apply in_or_app. right. now left. }
  repeat split; try assumption.
  - unfold handle_endtag. simpl. rewrite R, V'. simpl.
    destruct (mem expected raw_context_tags); simpl;
      rewrite P, String.eqb_refl; simpl; symmetry; now apply peek_Some.
  - unfold handle_endtag. simpl. rewrite R, V'. simpl.
    destruct (mem expected raw_context_tags); simpl;
      now rewrite P, String.eqb_refl.
Qed.

Lemma mismatched_close_leaves_stack_witness :
  errors
    (dispatch (Close "div" (1, 15)%Z)
       (feed [Open "div" (1, 0)%Z; Open "span" (1, 5)%Z] init))
  = errors (feed [Open "div" (1, 0)%Z; Open "span" (1, 5)%Z] init)
    ++ [(At 1 15, "Mismatched closing tag: expected </span> but got </div>")].
Proof.
  apply (mismatched_close_leaves_stack
           (feed [Open "div" (1, 0)%Z; Open "span" (1, 5)%Z] init)
           "div" "span" (1, 15)%Z (1, 21)%Z).
  - now exists [Open "div" (1, 0)%Z; Open "span" (1, 5)%Z].
  - reflexivity.
  - reflexivity.
  - reflexivity.
  - discriminate.
Defined.

(** ** Opening a raw-content element *)

Lemma dispatch_keeps_below
  (ev : TagEvent) (p : MyHTMLParser) (below above : list string)
  (name : string) :
  tags_stack p = below ++ name :: above ->
  (forall pos, ev <> Close name pos) ->
  exists above', tags_stack (dispatch ev p) = below ++ name :: above'.
Proof.
  intros S N. destruct ev as [t pos | t pos | message pos]; simpl.
  - destruct (handle_starttag_stack t p) as [E | [_ E]]; rewrite E, S.
    + now exists above.
    + exists (above ++ [t]). now rewrite <- app_assoc.
  - destruct (handle_endtag_stack t pos p) as [E | [P E]]; rewrite E, S.
    + now exists above.
    + destruct above as [|a above].
      * rewrite S, peek_last in P. injection P as ->. now destruct (N pos).
      * exists (removelast (a :: above)).
        now rewrite removelast_app by discriminate.
  - now exists above.
Qed.

Lemma feed_keeps_below
  (events : list TagEvent) (p : MyHTMLParser) (below above : list string)
  (name : string) :
  tags_stack p = below ++ name :: above ->
  (forall pos, ~ In (Close name pos) events) ->
  exists above', tags_stack (feed events p) = below ++ name :: above'.
Proof.
  revert p above. induction events as [|ev events IH]; intros p above S N.
  - now exists above.
  - destruct (dispatch_keeps_below ev p below above name S) as [above' S'].
    + intros pos ->. apply (N pos). now left.
    + rewrite feed_cons. apply (IH _ above' S').
      intros pos H. apply (N pos). now right.
Qed.

(** C1, as stated, fails: opening a raw-content element sets the raw
    flag and ALSO pushes the name, a raw-content name not being void; left
    unclosed, it is reported at end of input like any other name. *)
Lemma raw_open_is_pushed_and_reported :
  classify "script" = RawContent
  /\ is_in_raw_context init = false
  /\ tags_stack (dispatch (Open "script" (1, 0)%Z) init) = ["script"]
  /\ tags_stack (dispatch (Open "script" (1, 0)%Z) init) <> tags_stack init
  /\ fst (validate_html [Open "script" (1, 0)%Z])
     = [(At 0 0, "Unclosed tag: script")].
Proof.
  repeat split. discriminate.
Qed.

(** C1, amended.  An open tag of a raw-content element that arrives
    outside a raw span sets the raw flag and pushes the name onto the
    stack, without any diagnostic; consequently, when no close tag of
    that name follows in the input, the end-of-input accounting reports
    the name as unclosed. *)
Theorem raw_open_enters_raw_and_pushes
  (before rest : list TagEvent) (name : string) (pos : Z * Z) :
  let p := feed before init in
  let q := dispatch (Open name pos) p in
  is_in_raw_context p = false ->
  classify name = RawContent ->
  (forall pos', ~ In (Close name pos') rest) ->
  is_in_raw_context q = true
  /\ tags_stack q = tags_stack p ++ [name]
  /\ errors q = errors p
  /\ In (At 0 0, ("Unclosed tag: " ++ name)%string)
        (fst (validate_html (before ++ Open name pos :: rest))).
Proof.
  intros p q R C N. apply classify_RawContent in C.
  assert (Q : q = set_tags_stack (tags_stack p ++ [name])
                    (set_is_in_raw_context true
                       (set_tags_count (tags_count p + 1) p))).
  { unfold q. simpl. unfold handle_starttag. simpl.
    now rewrite R, C, (raw_not_void name C). }
  repeat split; try (rewrite Q; reflexivity).
  unfold validate_html. cbn [fst].
  rewrite feed_app, feed_cons. fold p. fold q.
  destruct (feed_keeps_below rest q (tags_stack p) [] name) as [above S].
  - rewrite Q. reflexivity.
  - exact N.
  - apply in_or_app. right. rewrite S. unfold unclosed_errors.
    apply (in_map (fun t => (At 0 0, unclosed_msg t))).
    rewrite <- in_rev. apply in_or_app. right. now left.
Qed.

Lemma raw_open_enters_raw_and_pushes_witness :
  In (At 0 0, "Unclosed tag: pre")
     (fst (validate_html
             ([Open "p" (1, 0)%Z]
                ++ Open "pre" (1, 3)%Z
                :: [Open "b" (1, 10)%Z; Close "code" (1, 13)%Z;
                    Close "p" (1, 19)%Z]))).
Proof.
  apply (raw_open_enters_raw_and_pushes
           [Open "p" (1, 0)%Z]
           [Open "b" (1, 10)%Z; Close "code" (1, 13)%Z; Close "p" (1, 19)%Z]
           "pre" (1, 3)%Z).
  - reflexivity.
  - reflexivity.
  - intros pos' [H | [H | [H | []]]]; discriminate.
Defined.

(** ** The multichoice rule *)

Section Located.

(** A tree library whose elements do carry their source line. *)
Variable line_of : Element -> Z.

Lemma check_question_located (q : Element) (errs : list error) :
  check_question (located line_of) q errs
  = Ok (errs ++ expected_diagnostics (line_of q) q).
Proof.
  unfold check_question, expected_diagnostics, append_error,
    getattr_sourceline, located.
  destruct (is_None (find_child "name" q)),
           (is_None (find_child "questiontext" q)),
           (is_empty (findall_children "answer" q));
    simpl; rewrite <- ?app_assoc, ?app_nil_r; reflexivity.
Qed.

Lemma check_questions_located (questions : list Element)
  (errs : list error) :
  check_questions (located line_of) questions errs
  = Ok (errs
        ++ flat_map (fun q => expected_diagnostics (line_of q) q) questions).
Proof.
  revert errs. induction questions as [|q questions IH]; intros errs.
  - simpl. now rewrite app_nil_r.
  - simpl. rewrite check_question_located. simpl.
    rewrite IH. now rewrite <- app_assoc.
Qed.

(** With source lines available, [validate_moodle_mc] returns, question
    by question in document order, the diagnostics the rule asks for. *)
Lemma validate_moodle_mc_located (root : Element) :
  validate_moodle_mc (located line_of) root
  = Ok (flat_map (fun q => expected_diagnostics (line_of q) q)
          (findall_questions root)).
Proof. unfold validate_moodle_mc. now rewrite check_questions_located. Qed.

End Located.

Lemma check_question_ET (q : Element) (errs : list error) :
  check_question ET_sourceline q errs
  = if complete_question q then Ok errs
    else Raise (AttributeError "sourceline").
Proof.
  unfold check_question, complete_question, append_error,
    getattr_sourceline, ET_sourceline.
  destruct (is_None (find_child "name" q)),
           (is_None (find_child "questiontext" q)),
           (is_empty (findall_children "answer" q)); reflexivity.
Qed.

(** On [ET] elements [validate_moodle_mc] never returns a diagnostic: it
    returns the empty list when every multichoice question is complete
    and raises [AttributeError] at the first one that is not. *)
Lemma validate_moodle_mc_ET (root : Element) :
  validate_moodle_mc ET_sourceline root
  = if forallb complete_question (findall_questions root) then Ok []
    else Raise (AttributeError "sourceline").
Proof.
  unfold validate_moodle_mc. generalize (@nil error) as errs.
  induction (findall_questions root) as [|q questions IH]; intros errs.
  - reflexivity. 
  - simpl. rewrite check_question_ET.
    destruct (complete_question q); simpl; [apply IH | reflexivity].
Qed.

(** C7.  The rule as the specification states it is what
    [validate_moodle_mc] computes on elements that carry a source line
    (lemma [validate_moodle_mc_located]); on the elements [ET.fromstring]
    builds, the first missing child makes [q.sourceline] raise
    [AttributeError], so that a multichoice question without a name and
    without answers yields an exception where the rule asks for two
    diagnostics, and [validate_file] passes the exception on. *)
Theorem multichoice_rule_raises_on_ET_elements :
  let question :=
    Elem "question" [("type", "multichoice")] [Elem "questiontext" [] []] in
  let root := Elem "quiz" [] [question] in
  let text :=
    "<quiz><question type='multichoice'><questiontext/></question></quiz>" in
  findall_questions root = [question]
  /\ (forall line : Z,
        expected_diagnostics line question
        = [(Line line, "Missing <name> tag in multichoice question");
           (Line line, "No <answer> tags found in multichoice question")])
  /\ validate_moodle_mc ET_sourceline root
     = Raise (AttributeError "sourceline")
  /\ validate_file (fun _ _ _ => ReadOk text) (fun _ => Ok [])
       (fun _ => Ok root) "quiz.xml" "XML" (Some "moodlemc")
     = Raise (AttributeError "sourceline").
Proof.
  repeat split.
Qed.

(** ** A document that does not parse *)

(** C8.  When [ET.fromstring] fails on the text of a document checked as
    XML, the session reports exactly one diagnostic, carrying the position
    and the message of the parse error, and returns an error count of 1
    and a tag count of 0; the outcome is the same whichever function
    stands in for the schema checker (even one that would raise): the
    checker is not called. *)
Theorem parse_failure_gives_one_diagnostic
  (read_file : string -> string -> option nat -> read_result)
  (tokenize : string -> result (list TagEvent))
  (fromstring : string -> result Element)
  (file_path content : string) (schema_option : option string)
  (e : ParseError) :
  read_file file_path "utf-8" None = ReadOk content
  \/ (read_file file_path "utf-8" None = DecodeFailed
      /\ read_file file_path "latin1" None = ReadOk content) ->
  fromstring content = Raise (ParseErrorExn e) ->
  let outcome :=
    Ok ([(At (fst (position e)) (snd (position e)), message_of e)],
        {| stats_tags := 0; stats_errors := 1 |}) in
  validate_file read_file tokenize fromstring file_path "XML" schema_option
  = outcome
  /\ (forall checker : Element -> result (list error),
        validate_file_with read_file tokenize fromstring checker
          file_path "XML" schema_option
        = outcome).
Proof.
  intros Hread Hparse outcome.
  assert (G : forall checker,
             validate_file_with read_file tokenize fromstring checker
               file_path "XML" schema_option = outcome).
  { intros checker. unfold validate_file_with.
    destruct Hread as [H | [H1 H2]].
    - rewrite H. simpl. unfold validate_xml. now rewrite Hparse.
    - rewrite H1, H2. simpl. unfold validate_xml. now rewrite Hparse. }
  split; [apply G | exact G].
Qed.

Lemma parse_failure_gives_one_diagnostic_witness :
  validate_file (fun _ _ _ => ReadOk "<a><b></a>") (fun _ => Ok [])
    (fun _ => Raise (ParseErrorExn
                       {| position := (1, 8)%Z;
                          message_of := "mismatched tag: line 1, column 8" |}))
    "broken.xml" "XML" (Some "moodlemc")
  = Ok ([(At 1 8, "mismatched tag: line 1, column 8")],
        {| stats_tags := 0; stats_errors := 1 |}).
Proof.
  apply (parse_failure_gives_one_diagnostic
           (fun _ _ _ => ReadOk "<a><b></a>") (fun _ => Ok [])
           (fun _ => Raise (ParseErrorExn
                              {| position := (1, 8)%Z;
                                 message_of :=
                                   "mismatched tag: line 1, column 8" |}))
           "broken.xml" "<a><b></a>" (Some "moodlemc")
           {| position := (1, 8)%Z;
              message_of := "mismatched tag: line 1, column 8" |}).
  - left. reflexivity.
  - reflexivity.
Defined.

(** ** Format detection *)







(** * Further properties of the tag parser *)

Lemma parser_ext (p q : MyHTMLParser) :
  tags_stack p = tags_stack q ->
  errors p = errors q ->
  tags_count p = tags_count q ->
  is_in_raw_context p = is_in_raw_context q ->
  p = q.
Proof. destruct p, q. simpl. intros -> -> -> ->. reflexivity. Qed.

Lemma count_opens_app (xs ys : list TagEvent) :
  count_opens (xs ++ ys) = count_opens xs + count_opens ys.
Proof. unfold count_opens. now rewrite filter_app, length_app. Qed.

Lemma count_opens_element (name : string) (pos pos' : Z * Z)
  (inner : list TagEvent) :
  count_opens (Open name pos :: inner ++ [Close name pos'])
  = 1 + count_opens inner.
Proof.
  change (Open name pos :: inner ++ [Close name pos'])
    with ([Open name pos] ++ inner ++ [Close name pos']).
  rewrite !count_opens_app. unfold count_opens at 1 3. simpl. lia.
Qed.



(** Properly nested markup leaves a parser that is outside a raw span as
    it found it, the counter apart. *)
Lemma feed_well_nested (events : list TagEvent) :
  well_nested events ->
  forall p : MyHTMLParser,
    is_in_raw_context p = false ->
    feed events p = set_tags_count (tags_count p + count_opens events) p.
Proof.
  induction 1 as [ | name pos V | name pos pos' inner O _ IH
                 | name pos pos' inner C N | xs ys _ IHx _ IHy ];
    intros p R.
  - unfold count_opens. simpl. rewrite Nat.add_0_r. now destruct p.
  - apply classify_Void in V.
    assert (W : mem name raw_context_tags = false).
    { destruct (mem name raw_context_tags) eqn:E; [|reflexivity].
      apply raw_not_void in E. congruence. }
    simpl. unfold handle_starttag. simpl. now rewrite R, W, V.
  - apply classify_Ordinary in O. destruct O as [V W].
    rewrite count_opens_element, feed_cons, feed_app.
    assert (E : dispatch (Open name pos) p
                = set_tags_stack (tags_stack p ++ [name])
                    (set_tags_count (tags_count p + 1) p)).
    { simpl. unfold handle_starttag. simpl. now rewrite R, W, V. }
    rewrite E, IH by exact R.
    simpl. unfold handle_endtag. simpl. rewrite R, W, V. simpl.
    rewrite peek_last, String.eqb_refl, removelast_last.
    apply parser_ext; simpl; try reflexivity. lia.
  - apply classify_RawContent in C. pose proof (raw_not_void name C) as V.
    rewrite count_opens_element, feed_cons, feed_app.
    assert (E : dispatch (Open name pos) p
                = set_tags_stack (tags_stack p ++ [name])
                    (set_is_in_raw_context true
                       (set_tags_count (tags_count p + 1) p))).
    { simpl. unfold handle_starttag. simpl. now rewrite R, C, V. }
    rewrite E.
    set (q := set_tags_stack _ _).
    destruct (feed_nested_in_raw inner q eq_refl N) as (He & Hs & Hr).
    pose proof (feed_count inner q) as Hc.
    simpl. unfold handle_endtag. rewrite Hr, C, V. simpl.
    rewrite Hs. simpl. rewrite peek_last, String.eqb_refl, removelast_last.
    apply parser_ext; simpl; try assumption; try reflexivity.
    + rewrite Hc. simpl. lia.
    + now symmetry.
  - rewrite feed_app, IHx by exact R. rewrite IHy by exact R.
    apply parser_ext; simpl; try reflexivity.
    rewrite count_opens_app. lia.
Qed.

(** X1.  Markup that is [well_nested] validates clean: no diagnostic is
    reported, and the tag count is the number of open tags.  ([well_nested]
    lets a raw-content element enclose open tags of any name and close
    tags of names that are not raw-content names; a close tag of another
    raw-content name inside it is not well nested, and is reported.) *)
Theorem well_nested_validates_clean (events : list TagEvent) :
  well_nested events ->
  validate_html events
  = ([], {| stats_tags := count_opens events; stats_errors := 0 |}).
Proof.
  intros W. unfold validate_html.
  rewrite (feed_well_nested events W init eq_refl). reflexivity.
Qed.

Lemma well_nested_validates_clean_witness :
  validate_html
    (Open "p" (1, 0)%Z :: [Open "br" (1, 8)%Z] ++ [Close "p" (1, 17)%Z])
  = ([], {| stats_tags := 2; stats_errors := 0 |}).
Proof.
  apply (well_nested_validates_clean
           (Open "p" (1, 0)%Z :: [Open "br" (1, 8)%Z] ++ [Close "p" (1, 17)%Z])).
  apply wn_element; [reflexivity|].
  apply wn_void. reflexivity.
Defined.



(** ** The raw flag *)

Lemma handle_starttag_flag (tag : string) (p : MyHTMLParser) :
  is_in_raw_context (handle_starttag tag p)
  = is_in_raw_context p || mem tag raw_context_tags.
Proof.
  unfold handle_starttag. simpl.
  destruct (is_in_raw_context p) eqn:R; [exact R|].
  destruct (mem tag raw_context_tags), (mem tag HTML_VOID_ELEMENTS);
    simpl; auto.
Qed.

Lemma handle_endtag_flag (tag : string) (pos : Z * Z) (p : MyHTMLParser) :
  is_in_raw_context (handle_endtag tag pos p)
  = is_in_raw_context p && negb (mem tag raw_context_tags).
Proof.
  unfold handle_endtag.
  destruct (is_in_raw_context p) eqn:R,
           (mem tag raw_context_tags) eqn:W; simpl; try exact R;
    destruct (mem tag HTML_VOID_ELEMENTS); simpl; try reflexivity;
    try exact R;
    (destruct (peek (tags_stack p)) as [top|]; simpl;
     [|try exact R; reflexivity]);
    destruct (String.eqb top tag); simpl; try exact R; reflexivity.
Qed.

Lemma dispatch_raw_span_open (ev : TagEvent) (p : MyHTMLParser) :
  raw_span_open p -> raw_span_open (dispatch ev p).
Proof.
  unfold raw_span_open. intros I.
  destruct ev as [name pos | name pos | message pos]; simpl.
  - rewrite handle_starttag_flag.
    destruct (is_in_raw_context p) eqn:R.
    + intros _. rewrite (handle_starttag_in_raw name p R). simpl. now apply I.
    + simpl. intros W. exists name. split; [|exact W].
      unfold handle_starttag. simpl.
      rewrite R, W, (raw_not_void name W). simpl. apply peek_last.
  - rewrite handle_endtag_flag. intros H.
    apply andb_true_iff in H. destruct H as [R W].
    unfold handle_endtag. rewrite R, W. simpl. now apply I.
  - exact I.
Qed.

Lemma reachable_raw_span_open (p : MyHTMLParser) :
  reachable p -> raw_span_open p.
Proof.
  intros [events ->]. unfold feed. rewrite <- fold_left_rev_right.
  induction (rev events) as [|ev evs IH]; simpl.
  - intros H. discriminate.
  - now apply dispatch_raw_span_open.
Qed.

Lemma unclosed_errors_top (stack : list string) (t : string) :
  peek stack = Some t ->
  unclosed_errors stack
  = (At 0 0, unclosed_msg t) :: unclosed_errors (removelast stack).
Proof.
  intros P. pose proof (peek_Some stack t P) as E.
  remember (removelast stack) as below. rewrite E.
  unfold unclosed_errors. now rewrite rev_app_distr.
Qed.

(** X3.  An input that ends inside a raw span never validates clean: the
    element on top of the stack is then a raw-content element, and the
    first end-of-input diagnostic reports it as unclosed. *)
Theorem input_ending_in_raw_span_is_reported (events : list TagEvent) :
  is_in_raw_context (feed events init) = true ->
  exists opener,
    classify opener = RawContent
    /\ peek (tags_stack (feed events init)) = Some opener
    /\ nth_error (fst (validate_html events))
         (length (errors (feed events init)))
       = Some (At 0 0, ("Unclosed tag: " ++ opener)%string)
    /\ 1 <= stats_errors (snd (validate_html events)).
Proof.
  intros R.
  destruct (reachable_raw_span_open (feed events init)
              (ex_intro _ events eq_refl) R) as (opener & P & W).
  exists opener. split; [now apply classify_RawContent|].
  split; [exact P|].
  unfold validate_html. cbn [fst snd stats_errors].
  rewrite (unclosed_errors_top _ _ P). split.
  - rewrite nth_error_app2 by lia. now rewrite Nat.sub_diag.
  - rewrite length_app. simpl. lia.
Qed.

Lemma input_ending_in_raw_span_is_reported_witness :
  exists opener,
    classify opener = RawContent
    /\ peek (tags_stack
               (feed [Open "p" (1, 0)%Z; Open "pre" (1, 3)%Z;
                      Close "p" (1, 8)%Z] init))
       = Some opener
    /\ nth_error
         (fst (validate_html
                 [Open "p" (1, 0)%Z; Open "pre" (1, 3)%Z; Close "p" (1, 8)%Z]))
         (length
            (errors
               (feed [Open "p" (1, 0)%Z; Open "pre" (1, 3)%Z;
                      Close "p" (1, 8)%Z] init)))
       = Some (At 0 0, ("Unclosed tag: " ++ opener)%string)
    /\ 1 <= stats_errors
              (snd (validate_html
                      [Open "p" (1, 0)%Z; Open "pre" (1, 3)%Z;
                       Close "p" (1, 8)%Z])).
Proof.
  apply (input_ending_in_raw_span_is_reported
           [Open "p" (1, 0)%Z; Open "pre" (1, 3)%Z; Close "p" (1, 8)%Z]).
  reflexivity.
Defined.

(** X4.  Inside a raw span, the close tag of ANY raw-content element
    ends the span.  When it names the element that opened the span, that
    element is popped and nothing is reported; when it names another
    raw-content element, a mismatch against the opener is reported and
    the opener stays on the stack, with the raw flag cleared all the
    same. *)
Theorem raw_close_ends_raw_span
  (p : MyHTMLParser) (name : string) (pos : Z * Z) :
  reachable p ->
  is_in_raw_context p = true ->
  classify name = RawContent ->
  let p' := dispatch (Close name pos) p in
  exists opener,
    peek (tags_stack p) = Some opener
    /\ classify opener = RawContent
    /\ is_in_raw_context p' = false
    /\ (opener = name ->
        tags_stack p' ++ [name] = tags_stack p /\ errors p' = errors p)
    /\ (opener <> name ->
        tags_stack p' = tags_stack p
        /\ errors p'
           = errors p
             ++ [(At (fst pos) (snd pos),
                  ("Mismatched closing tag: expected </" ++ opener
                     ++ "> but got </" ++ name ++ ">")%string)]).
Proof.
  intros Hreach R C p'. apply classify_RawContent in C.
  destruct (reachable_raw_span_open p Hreach R) as (opener & P & W).
  exists opener. split; [exact P|].
  split; [now apply classify_RawContent|].
  split; [unfold p'; simpl; rewrite handle_endtag_flag, R, C; reflexivity|].
  assert (E : p' = match peek (tags_stack p) with
                   | None => report pos (unmatched_msg name)
                               (set_is_in_raw_context false p)
                   | Some expected_tag =>
                       if String.eqb expected_tag name then
                         set_tags_stack (removelast (tags_stack p))
                           (set_is_in_raw_context false p)
                       else report pos (mismatched_msg expected_tag name)
                              (set_is_in_raw_context false p)
                   end).
  { unfold p'. simpl. unfold handle_endtag.
    now rewrite R, C, (raw_not_void name C). }
  rewrite P in E. split.
  - intros ->. rewrite String.eqb_refl in E. rewrite E. simpl.
    split; [symmetry; now apply peek_Some | reflexivity].
  - intros N. apply String.eqb_neq in N. rewrite N in E. rewrite E.
    simpl. split; reflexivity.
Qed.

Lemma raw_close_ends_raw_span_witness :
  exists opener,
    peek (tags_stack (feed [Open "pre" (1, 0)%Z] init)) = Some opener
    /\ classify opener = RawContent
    /\ is_in_raw_context
         (dispatch (Close "code" (2, 0)%Z) (feed [Open "pre" (1, 0)%Z] init))
       = false
    /\ (opener = "code" ->
        tags_stack
          (dispatch (Close "code" (2, 0)%Z)
             (feed [Open "pre" (1, 0)%Z] init)) ++ ["code"]
        = tags_stack (feed [Open "pre" (1, 0)%Z] init)
        /\ errors
             (dispatch (Close "code" (2, 0)%Z)
                (feed [Open "pre" (1, 0)%Z] init))
           = errors (feed [Open "pre" (1, 0)%Z] init))
    /\ (opener <> "code" ->
        tags_stack
          (dispatch (Close "code" (2, 0)%Z)
             (feed [Open "pre" (1, 0)%Z] init))
        = tags_stack (feed [Open "pre" (1, 0)%Z] init)
        /\ errors
             (dispatch (Close "code" (2, 0)%Z)
                (feed [Open "pre" (1, 0)%Z] init))
           = errors (feed [Open "pre" (1, 0)%Z] init)
             ++ [(At 2 0,
                  ("Mismatched closing tag: expected </" ++ opener
                     ++ "> but got </code>")%string)]).
Proof.
  apply (raw_close_ends_raw_span (feed [Open "pre" (1, 0)%Z] init)
           "code" (2, 0)%Z).
  - now exists [Open "pre" (1, 0)%Z].
  - reflexivity.
  - reflexivity.
Defined.

(** X5.  A close tag that meets an empty stack (after any input
    whatsoever) and does not name a void element adds exactly one
    unmatched-close diagnostic, at its position, and changes nothing
    else: the stack stays empty, the raw flag stays cleared and later
    events are processed as before. *)
Theorem close_on_empty_stack_is_unmatched
  (p : MyHTMLParser) (name : string) (pos : Z * Z) :
  reachable p ->
  tags_stack p = [] ->
  classify name <> Void ->
  dispatch (Close name pos) p
  = set_errors
      (errors p
       ++ [(At (fst pos) (snd pos),
            ("Unmatched closing tag: " ++ name ++ " (stack is empty)")
              %string)]) p
  /\ tags_stack (dispatch (Close name pos) p) = []
  /\ is_in_raw_context (dispatch (Close name pos) p) = false.
Proof.
  intros Hreach S V.
  assert (R : is_in_raw_context p = false).
  { destruct (is_in_raw_context p) eqn:R; [|reflexivity].
    destruct (reachable_raw_span_open p Hreach R) as (opener & P & _).
    rewrite S in P. discriminate. }
  assert (V' : mem name HTML_VOID_ELEMENTS = false).
  { destruct (mem name HTML_VOID_ELEMENTS) eqn:E; [|reflexivity].
    apply classify_Void in E. contradiction. }
  assert (E : dispatch (Close name pos) p = report pos (unmatched_msg name) p).
  { simpl. unfold handle_endtag. rewrite R, V'. simpl.
    destruct (mem name raw_context_tags); simpl; rewrite S; simpl;
      apply parser_ext; simpl; auto. }
  rewrite E. simpl. auto.
Qed.

Lemma close_on_empty_stack_is_unmatched_witness :
  dispatch (Close "div" (1, 7)%Z)
    (feed [Open "b" (1, 0)%Z; Close "b" (1, 3)%Z] init)
  = set_errors
      (errors (feed [Open "b" (1, 0)%Z; Close "b" (1, 3)%Z] init)
       ++ [(At 1 7, "Unmatched closing tag: div (stack is empty)")])
      (feed [Open "b" (1, 0)%Z; Close "b" (1, 3)%Z] init).
Proof.
  apply (close_on_empty_stack_is_unmatched
           (feed [Open "b" (1, 0)%Z; Close "b" (1, 3)%Z] init)
           "div" (1, 7)%Z).
  - now exists [Open "b" (1, 0)%Z; Close "b" (1, 3)%Z].
  - reflexivity.
  - discriminate.
Defined.

(** ** How much one event can do *)

Lemma handle_starttag_errors (tag : string) (p : MyHTMLParser) :
  errors (handle_starttag tag p) = errors p.
Proof.
  unfold handle_starttag. simpl.
  destruct (is_in_raw_context p); [reflexivity|].
  destruct (mem tag raw_context_tags), (mem tag HTML_VOID_ELEMENTS);
    reflexivity.
Qed.

(** An event does one of four things to the stack and the diagnostics:
    nothing; push one name (open tags only); pop one name; or add one
    diagnostic (never an open tag). *)
Lemma dispatch_effect (ev : TagEvent) (p : MyHTMLParser) :
  (errors (dispatch ev p) = errors p
   /\ tags_stack (dispatch ev p) = tags_stack p)
  \/ (is_open ev = true
      /\ errors (dispatch ev p) = errors p
      /\ exists t, tags_stack (dispatch ev p) = tags_stack p ++ [t])
  \/ (is_open ev = false
      /\ errors (dispatch ev p) = errors p
      /\ exists t, tags_stack p = tags_stack (dispatch ev p) ++ [t])
  \/ (is_open ev = false
      /\ tags_stack (dispatch ev p) = tags_stack p
      /\ exists e, errors (dispatch ev p) = errors p ++ [e]).
Proof.
  destruct ev as [name pos | name pos | message pos]; simpl.
  - rewrite handle_starttag_errors.
    destruct (handle_starttag_stack name p) as [E | [_ E]]; rewrite E.
    + now left.
    + right. left. repeat split. now exists name.
  - unfold handle_endtag.
    destruct (is_in_raw_context p && negb (mem name raw_context_tags));
      [now left|].
    destruct (mem name raw_context_tags), (mem name HTML_VOID_ELEMENTS);
      simpl;
      try (right; right; right; repeat split; now eexists);
      (destruct (peek (tags_stack p)) as [top|] eqn:P;
       [|right; right; right; repeat split; now eexists]);
      (destruct (String.eqb top name);
       [|right; right; right; repeat split; now eexists]);
      right; right; left; simpl; repeat split; exists top;
      now apply peek_Some.
  - right. right. right. repeat split. now eexists.
Qed.

(** X6.  Diagnostics only accumulate: feeding more input never removes
    or rewrites a diagnostic already recorded, open tags record none, and
    every close tag or lexical error records at most one. *)
Theorem diagnostics_only_accumulate
  (events : list TagEvent) (p : MyHTMLParser) :
  exists added,
    errors (feed events p) = errors p ++ added
    /\ length added + count_opens events <= length events.
Proof.
  revert p. induction events as [|ev events IH]; intros p.
  - exists []. split; [now rewrite app_nil_r | reflexivity].
  - rewrite feed_cons. destruct (IH (dispatch ev p)) as (added & E & L).
    assert (K : count_opens (ev :: events)
                = (if is_open ev then 1 else 0) + count_opens events).
    { unfold count_opens. simpl. now destruct (is_open ev). }
    rewrite E, K.
    destruct (dispatch_effect ev p)
      as [[He _] | [(O & He & _) | [(O & He & _) | (O & _ & e & He)]]];
      rewrite He.
    + exists added. split; [reflexivity|].
      destruct (is_open ev); simpl; lia.
    + exists added. split; [reflexivity|]. rewrite O. simpl. lia.
    + exists added. split; [reflexivity|]. rewrite O. simpl. lia.
    + exists (e :: added). split; [now rewrite <- app_assoc|].
      rewrite O. simpl. lia.
Qed.

Lemma feed_size (events : list TagEvent) (p : MyHTMLParser) :
  length (tags_stack (feed events p))
  <= length (tags_stack p) + count_opens events
  /\ length (errors (feed events p)) + length (tags_stack (feed events p))
     <= length (errors p) + length (tags_stack p) + length events.
Proof.
  revert p. induction events as [|ev events IH]; intros p.
  - unfold count_opens. simpl. lia.
  - rewrite feed_cons. destruct (IH (dispatch ev p)) as [A B].
    assert (K : count_opens (ev :: events)
                = (if is_open ev then 1 else 0) + count_opens events).
    { unfold count_opens. simpl. now destruct (is_open ev). }
    rewrite K. cbn [length].
    destruct (dispatch_effect ev p)
      as [[He Hs] | [(O & He & t & Hs) | [(O & He & t & Hs)
                                          | (O & Hs & e & He)]]].
    + rewrite He, Hs in *. lia.
    + rewrite He, Hs, length_app in *. rewrite O. simpl in *. lia.
    + rewrite He in *. rewrite Hs, length_app. simpl. lia.
    + rewrite He, Hs, length_app in *. simpl in *. lia.
Qed.

(** X7.  The work of the validator is bounded by its input: the stack
    never holds more names than open tags were seen, so at most that
    many elements are reported as unclosed, and the number of diagnostics
    reported for a document never exceeds its number of events. *)
Theorem error_count_bounded_by_events (events : list TagEvent) :
  length (tags_stack (feed events init)) <= count_opens events
  /\ length (unclosed_errors (tags_stack (feed events init)))
     <= stats_tags (snd (validate_html events))
  /\ stats_errors (snd (validate_html events)) <= length events.
Proof.
  destruct (feed_size events init) as [A B]. simpl in A, B.
  unfold validate_html. cbn [snd stats_errors stats_tags].
  rewrite length_app, unclosed_errors_length, feed_count. simpl.
  repeat split; lia.
Qed.

(** * Further properties of the multichoice rule *)

Lemma expected_diagnostics_nil (line : Z) (q : Element) :
  expected_diagnostics line q = [] <-> complete_question q = true.
Proof.
  unfold expected_diagnostics, complete_question.
  destruct (is_None (find_child "name" q)),
           (is_None (find_child "questiontext" q)),
           (is_empty (findall_children "answer" q));
    simpl; split; (discriminate || reflexivity).
Qed.

(** What the loop body does, by what the tree library answers to
    [q.sourceline]. *)
Lemma check_question_cases (sourceline_of : Element -> option Z)
  (q : Element) (errs : list error) :
  check_question sourceline_of q errs
  = match sourceline_of q with
    | Some line => Ok (errs ++ expected_diagnostics line q)
    | None => if complete_question q then Ok errs
              else Raise (AttributeError "sourceline")
    end.
Proof.
  unfold check_question, expected_diagnostics, complete_question,
    append_error, getattr_sourceline.
  destruct (sourceline_of q) as [line|];
    destruct (is_None (find_child "name" q)),
             (is_None (find_child "questiontext" q)),
             (is_empty (findall_children "answer" q));
    simpl; rewrite <- ?app_assoc, ?app_nil_r; reflexivity.
Qed.

Lemma check_questions_complete (sourceline_of : Element -> option Z)
  (questions : list Element) (errs : list error) :
  forallb complete_question questions = true ->
  check_questions sourceline_of questions errs = Ok errs.
Proof.
  revert errs. induction questions as [|q questions IH]; intros errs H.
  - reflexivity.
  - simpl in H. apply andb_true_iff in H. destruct H as [Hq Hrest].
    simpl. rewrite check_question_cases, Hq.
    destruct (sourceline_of q) as [line|]; simpl.
    + apply expected_diagnostics_nil with (line := line) in Hq.
      rewrite Hq, app_nil_r. now apply IH.
    + now apply IH.
Qed.

Lemma check_questions_grows (sourceline_of : Element -> option Z)
  (questions : list Element) (errs errs' : list error) :
  check_questions sourceline_of questions errs = Ok errs' ->
  exists added,
    errs' = errs ++ added
    /\ (added = [] -> forallb complete_question questions = true).
Proof.
  revert errs. induction questions as [|q questions IH]; intros errs H.
  - simpl in H. injection H as <-. exists []. now rewrite app_nil_r.
  - simpl in H. rewrite check_question_cases in H.
    destruct (sourceline_of q) as [line|].
    + simpl in H. destruct (IH _ H) as (added & -> & C).
      exists (expected_diagnostics line q ++ added).
      split; [now rewrite app_assoc|].
      intros E. apply app_eq_nil in E. destruct E as [E1 E2].
      simpl. apply expected_diagnostics_nil in E1. rewrite E1. now apply C.
    + destruct (complete_question q) eqn:Q; [|discriminate].
      simpl in H. destruct (IH _ H) as (added & -> & C).
      exists added. split; [reflexivity|]. intros E. simpl. rewrite Q.
      now apply C.
Qed.

(** X8.  Whatever the tree library answers to [q.sourceline], the rule
    passes a document with the empty list exactly when every multichoice
    question below the root has a name, a question text and at least one
    answer among its direct children. *)
Theorem multichoice_rule_passes_iff_complete
  (sourceline_of : Element -> option Z) (root : Element) :
  validate_moodle_mc sourceline_of root = Ok []
  <-> forallb complete_question (findall_questions root) = true.
Proof.
  unfold validate_moodle_mc. split.
  - intros H. destruct (check_questions_grows _ _ _ _ H) as (added & E & C).
    apply C. now destruct added.
  - apply check_questions_complete.
Qed.

Lemma multichoice_rule_passes_iff_complete_witness :
  validate_moodle_mc ET_sourceline
    (Elem "quiz" []
       [Elem "question" [("type", "multichoice")]
          [Elem "name" [] []; Elem "questiontext" [] [];
           Elem "answer" [] []; Elem "answer" [] []];
        Elem "question" [("type", "essay")] []])
  = Ok [].
Proof.
  apply (proj2 (multichoice_rule_passes_iff_complete ET_sourceline
                  (Elem "quiz" []
                     [Elem "question" [("type", "multichoice")]
                        [Elem "name" [] []; Elem "questiontext" [] [];
                         Elem "answer" [] []; Elem "answer" [] []];
                      Elem "question" [("type", "essay")] []]))).
  reflexivity.
Defined.

(** * Further properties of the validation session *)

Lemma iter_positive (root : Element) : 1 <= length (iter root).
Proof. destruct root. simpl. lia. Qed.



(** X10.  With the [moodlemc] schema, an XML document that can be read
    (as UTF-8 or, failing that, as Latin-1) and that parses is never
    reported with a schema diagnostic: the session returns no diagnostic,
    zero errors and the number of elements of the tree (at least one)
    when every multichoice question is complete, and is left by an
    [AttributeError] otherwise. *)
Theorem moodlemc_session_is_clean_or_raises
  (read_file : string -> string -> option nat -> read_result)
  (tokenize : string -> result (list TagEvent))
  (fromstring : string -> result Element)
  (file_path content : string) (root : Element) :
  read_file file_path "utf-8" None = ReadOk content
  \/ (read_file file_path "utf-8" None = DecodeFailed
      /\ read_file file_path "latin1" None = ReadOk content) ->
  fromstring content = Ok root ->
  validate_file read_file tokenize fromstring file_path "XML"
    (Some "moodlemc")
  = (if forallb complete_question (findall_questions root)
     then Ok ([], {| stats_tags := length (iter root); stats_errors := 0 |})
     else Raise (AttributeError "sourceline"))
  /\ 1 <= length (iter root).
Proof.
  intros R F. split; [|apply iter_positive].
  unfold validate_file, validate_file_with.
  assert (X : validate_xml fromstring (validate_moodle_mc ET_sourceline)
                content (Some "moodlemc")
              = (if forallb complete_question (findall_questions root)
                 then Ok ([], {| stats_tags := length (iter root);
                                 stats_errors := 0 |})
                 else Raise (AttributeError "sourceline"))).
  { unfold validate_xml. rewrite F. simpl. rewrite validate_moodle_mc_ET.
    now destruct (forallb complete_question (findall_questions root)). }
  destruct R as [R | [R1 R2]].
  - rewrite R. simpl. exact X.
  - rewrite R1, R2. simpl. exact X.
Qed.

Lemma moodlemc_session_is_clean_or_raises_witness :
  validate_file
    (fun _ encoding _ =>
       if String.eqb encoding "utf-8" then DecodeFailed
       else ReadOk "<quiz><question type='multichoice'/></quiz>")
    (fun _ => Ok [])
    (fun _ => Ok (Elem "quiz" [] [Elem "question" [("type", "multichoice")] []]))
    "quiz.xml" "XML" (Some "moodlemc")
  = Raise (AttributeError "sourceline").
Proof.
  apply (moodlemc_session_is_clean_or_raises
           (fun _ encoding _ =>
              if String.eqb encoding "utf-8" then DecodeFailed
              else ReadOk "<quiz><question type='multichoice'/></quiz>")
           (fun _ => Ok [])
           (fun _ => Ok (Elem "quiz" []
                           [Elem "question" [("type", "multichoice")] []]))
           "quiz.xml" "<quiz><question type='multichoice'/></quiz>"
           (Elem "quiz" [] [Elem "question" [("type", "multichoice")] []])).
  - right. split; reflexivity.
  - reflexivity.
Defined.

(** * Properties of batch scanning *)

Section BatchProperties.

Variable lower : string -> string.
Variable join : string -> string -> string.
Variable validate : string -> string -> result Stats.

Lemma scan_files_cons (file_format file_path : string)
  (files : list string) (g : GlobalSummary) :
  scan_files validate file_format (file_path :: files) g
  = scan_files validate file_format files
      (scan_file validate file_format g file_path).
Proof. reflexivity. Qed.

Lemma scan_files_sums (file_format : string) (files : list string)
  (g : GlobalSummary) :
  let validated := validated_stats validate file_format files in
  scan_files validate file_format files g
  = {| files_scanned := files_scanned g + length validated;
       files_with_errors :=
         files_with_errors g
         + length (filter (fun s => Nat.ltb 0 (stats_errors s)) validated);
       total_errors := total_errors g + list_sum (map stats_errors validated);
       total_tags := total_tags g + list_sum (map stats_tags validated) |}.
Proof.
  revert g. induction files as [|file_path files IH]; intros g.
  - simpl. rewrite !Nat.add_0_r. now destruct g.
  - rewrite scan_files_cons, IH. unfold scan_file, validated_stats.
    simpl. destruct (validate file_path file_format) as [stats | e]; simpl.
    + destruct (Nat.ltb 0 (stats_errors stats)); simpl; f_equal; lia.
    + reflexivity.
Qed.

(** X11.  The global summary of a flat scan is the sum over the files
    whose validation returned: their number, how many of them have
    errors, their errors and their tags.  A file whose validation raises
    an exception is left out of every figure, the file count included. *)
Theorem flat_scan_sums_validated_files
  (file_format : string) (files : list string) :
  let validated := validated_stats validate file_format files in
  scan_files validate file_format files global_summary_init
  = {| files_scanned := length validated;
       files_with_errors :=
         length (filter (fun s => Nat.ltb 0 (stats_errors s)) validated);
       total_errors := list_sum (map stats_errors validated);
       total_tags := list_sum (map stats_tags validated) |}
  /\ length validated <= length files.
Proof.
  split; [apply scan_files_sums|].
  unfold validated_stats.
  induction files as [|file_path files IH]; simpl; [lia|].
  rewrite length_app.
  destruct (validate file_path file_format); simpl; lia.
Qed.

Lemma scan_files_coherent (file_format : string) (files : list string)
  (g : GlobalSummary) :
  coherent g -> coherent (scan_files validate file_format files g).
Proof.
  revert g. induction files as [|file_path files IH]; intros g H;
    [exact H|].
  rewrite scan_files_cons. apply IH. unfold scan_file.
  destruct (validate file_path file_format) as [stats | e]; [|exact H].
  destruct H as (A & B & C). unfold coherent, add_to_global. simpl.
  destruct (Nat.ltb_spec 0 (stats_errors stats)); simpl; lia.
Qed.

Lemma scan_file_in_dir_pair (file_format file_path : string)
  (d : DirSummary) (g : GlobalSummary) :
  scan_file_in_dir validate file_format (d, g) file_path
  = match validate file_path file_format with
    | Ok stats => (add_to_dir stats d, add_to_global stats g)
    | Raise _ => (d, g)
    end.
Proof. reflexivity. Qed.

Lemma fold_scan_file_in_dir (file_format : string) (files : list string)
  (d : DirSummary) (g : GlobalSummary) :
  let r := fold_left (scan_file_in_dir validate file_format) files (d, g) in
  snd r = scan_files validate file_format files g
  /\ dir_files_scanned (fst r) + files_scanned g
     = dir_files_scanned d + files_scanned (snd r)
  /\ dir_files_with_errors (fst r) + files_with_errors g
     = dir_files_with_errors d + files_with_errors (snd r)
  /\ dir_total_errors (fst r) + total_errors g
     = dir_total_errors d + total_errors (snd r).
Proof.
  cbv zeta. revert d g. induction files as [|file_path files IH]; intros d g.
  - simpl. repeat split; lia.
  - cbn [fold_left]. rewrite scan_files_cons, scan_file_in_dir_pair.
    unfold scan_file.
    destruct (validate file_path file_format) as [stats | e]; [|apply IH].
    destruct (IH (add_to_dir stats d) (add_to_global stats g))
      as (E & A & B & C).
    remember (fold_left (scan_file_in_dir validate file_format) files
                (add_to_dir stats d, add_to_global stats g)) as r.
    split; [exact E|]. simpl in A, B, C.
    destruct (Nat.ltb 0 (stats_errors stats)); repeat split; lia.
Qed.

Lemma scan_dir_triple (extensions : list string) (file_format : string)
  (dirs : list (string * DirSummary)) (g : GlobalSummary)
  (dirpath : string) (dirnames filenames : list string) :
  scan_dir lower join validate extensions file_format (dirs, g)
    (dirpath, dirnames, filenames)
  = if is_empty (files_in_this_dir lower join extensions dirpath filenames)
    then (dirs, g)
    else
      (dirs
         ++ [(dirpath,
              fst (fold_left (scan_file_in_dir validate file_format)
                     (files_in_this_dir lower join extensions dirpath
                        filenames)
                     (dir_summary_init, g)))],
       snd (fold_left (scan_file_in_dir validate file_format)
              (files_in_this_dir lower join extensions dirpath filenames)
              (dir_summary_init, g))).
Proof. reflexivity. Qed.

Lemma scan_files_app (file_format : string) (xs ys : list string)
  (g : GlobalSummary) :
  scan_files validate file_format (xs ++ ys) g
  = scan_files validate file_format ys
      (scan_files validate file_format xs g).
Proof. unfold scan_files. apply fold_left_app. Qed.

Lemma fold_scan_dir (extensions : list string) (file_format : string)
  (entries : list (string * list string * list string))
  (dirs : list (string * DirSummary)) (g : GlobalSummary) :
  let r := fold_left (scan_dir lower join validate extensions file_format)
             entries (dirs, g) in
  snd r = scan_files validate file_format
            (files_of_walk lower join extensions entries) g
  /\ list_sum (map (fun x => dir_files_scanned (snd x)) (fst r))
     + files_scanned g
     = list_sum (map (fun x => dir_files_scanned (snd x)) dirs)
       + files_scanned (snd r)
  /\ list_sum (map (fun x => dir_files_with_errors (snd x)) (fst r))
     + files_with_errors g
     = list_sum (map (fun x => dir_files_with_errors (snd x)) dirs)
       + files_with_errors (snd r)
  /\ list_sum (map (fun x => dir_total_errors (snd x)) (fst r))
     + total_errors g
     = list_sum (map (fun x => dir_total_errors (snd x)) dirs)
       + total_errors (snd r).
Proof.
  cbv zeta. revert dirs g.
  induction entries as [|[[dirpath dirnames] filenames] entries IH];
    intros dirs g.
  - simpl. repeat split; lia.
  - cbn [fold_left]. rewrite scan_dir_triple.
    change (files_of_walk lower join extensions
              ((dirpath, dirnames, filenames) :: entries))
      with (files_in_this_dir lower join extensions dirpath filenames
              ++ files_of_walk lower join extensions entries).
    rewrite scan_files_app.
    set (files := files_in_this_dir lower join extensions dirpath filenames).
    destruct (is_empty files) eqn:Em.
    + assert (files = []) as -> by (now destruct files).
      apply IH.
    + destruct (fold_scan_file_in_dir file_format files dir_summary_init g)
        as (E & A & B & C).
      remember (fold_left (scan_file_in_dir validate file_format) files
                  (dir_summary_init, g)) as dg.
      destruct (IH (dirs ++ [(dirpath, fst dg)]) (snd dg))
        as (E' & A' & B' & C').
      split; [now rewrite E', E|].
      rewrite map_app, list_sum_app in A', B', C'.
      simpl in A, B, C, A', B', C'. repeat split; lia.
Qed.

Variable walk : string -> list (string * list string * list string).

(** X12.  A recursive scan validates, directory by directory in the
    order of the walk, the files a flat scan over all of them would
    validate, and ends with the same global summary; the per-directory
    summaries add up to the global one. *)
Theorem recursive_scan_is_flat_scan_of_walk
  (input : string) (extensions : list string) (file_format : string) :
  let r := scan_recursive lower join walk validate input extensions
             file_format in
  snd r
  = scan_files validate file_format
      (files_of_walk lower join extensions (walk input)) global_summary_init
  /\ list_sum (map (fun x => dir_files_scanned (snd x)) (fst r))
     = files_scanned (snd r)
  /\ list_sum (map (fun x => dir_files_with_errors (snd x)) (fst r))
     = files_with_errors (snd r)
  /\ list_sum (map (fun x => dir_total_errors (snd x)) (fst r))
     = total_errors (snd r).
Proof.
  cbv zeta. unfold scan_recursive.
  destruct (fold_scan_dir extensions file_format (walk input) []
              global_summary_init) as (E & A & B & C).
  simpl in A, B, C. repeat split; try assumption; lia.
Qed.

(** X13.  The summary of a scan is coherent whatever the files do: no
    more files with errors than files scanned, no more files with errors
    than errors, and no file with errors exactly when there is no error
    in total. *)
Theorem scan_summary_is_coherent
  (input : string) (extensions : list string) (file_format : string)
  (files : list string) :
  coherent (scan_files validate file_format files global_summary_init)
  /\ coherent (snd (scan_recursive lower join walk validate input
                      extensions file_format)).
Proof.
  assert (Z : coherent global_summary_init)
    by (unfold coherent; simpl; repeat split; lia).
  split; [now apply scan_files_coherent|].
  unfold scan_recursive.
  destruct (fold_scan_dir extensions file_format (walk input) []
              global_summary_init) as (E & _).
  rewrite E. now apply scan_files_coherent.
Qed.

End BatchProperties.

(** ** Which files a scan picks up *)










(** * Properties of the command line *)

Lemma validate_file_xml_errors
  (read_file : string -> string -> option nat -> read_result)
  (tokenize : string -> result (list TagEvent))
  (fromstring : string -> result Element)
  (file_path : string) (schema_option : option string)
  (errs : list error) (stats : Stats) :
  validate_file read_file tokenize fromstring file_path "XML" schema_option
  = Ok (errs, stats) ->
  stats_errors stats <= 1.
Proof.
  unfold validate_file, validate_file_with.
  assert (D : forall content,
             validate_xml fromstring (validate_moodle_mc ET_sourceline)
               content schema_option = Ok (errs, stats) ->
             stats_errors stats <= 1).
  { intros content. unfold validate_xml, on_parse_error.
    destruct (fromstring content) as [root | [e | a | | d]];
      try discriminate.
    - destruct (is_moodlemc schema_option).
      + rewrite validate_moodle_mc_ET.
        destruct (forallb complete_question (findall_questions root));
          [|discriminate].
        intros H. injection H as <- <-. simpl. lia.
      + intros H. injection H as <- <-. simpl. lia.
    - intros H. injection H as <- <-. simpl. lia. }
  destruct (read_file file_path "utf-8" None) as [content | | d].
  - apply D.
  - destruct (read_file file_path "latin1" None) as [content | | d];
      try discriminate.
    apply D.
  - intros H. injection H as <- <-. simpl. lia.
Qed.

(** X15.  A document checked as XML is never reported with more than
    one error, whatever the schema option: the one error is a parse
    failure or an unreadable file, and then no element is counted; the
    multichoice rule contributes none. *)
Theorem xml_document_has_at_most_one_error
  (read_file : string -> string -> option nat -> read_result)
  (tokenize : string -> result (list TagEvent))
  (fromstring : string -> result Element)
  (file_path : string) (schema_option : option string)
  (errs : list error) (stats : Stats) :
  validate_file read_file tokenize fromstring file_path "XML" schema_option
  = Ok (errs, stats) ->
  stats_errors stats <= 1
  /\ length errs <= 1
  /\ (stats_errors stats = 1 <-> stats_tags stats = 0).
Proof.
  unfold validate_file, validate_file_with.
  assert (D : forall content,
             validate_xml fromstring (validate_moodle_mc ET_sourceline)
               content schema_option = Ok (errs, stats) ->
             stats_errors stats <= 1
             /\ length errs <= 1
             /\ (stats_errors stats = 1 <-> stats_tags stats = 0)).
  { intros content. unfold validate_xml, on_parse_error.
    destruct (fromstring content) as [root | [e | a | | d]];
      try discriminate.
    - pose proof (iter_positive root) as P.
      destruct (is_moodlemc schema_option).
      + rewrite validate_moodle_mc_ET.
        destruct (forallb complete_question (findall_questions root));
          [|discriminate].
        intros H. injection H as <- <-. simpl. lia.
      + intros H. injection H as <- <-. simpl. lia.
    - intros H. injection H as <- <-. simpl. lia. }
  destruct (read_file file_path "utf-8" None) as [content | | d].
  - apply D.
  - destruct (read_file file_path "latin1" None) as [content | | d];
      try discriminate.
    apply D.
  - intros H. injection H as <- <-. simpl. lia.
Qed.

Lemma xml_document_has_at_most_one_error_witness :
  stats_errors {| stats_tags := 0; stats_errors := 1 |} <= 1
  /\ length [(At 1 8, "mismatched tag: line 1, column 8")] <= 1
  /\ (stats_errors {| stats_tags := 0; stats_errors := 1 |} = 1
      <-> stats_tags {| stats_tags := 0; stats_errors := 1 |} = 0).
Proof.
  apply (xml_document_has_at_most_one_error
           (fun _ _ _ => ReadOk "<a><b></a>") (fun _ => Ok [])
           (fun _ => Raise (ParseErrorExn
                              {| position := (1, 8)%Z;
                                 message_of :=
                                   "mismatched tag: line 1, column 8" |}))
           "broken.xml" None).
  reflexivity.
Defined.

Lemma sniff_range (content : string) :
  sniff content = "HTML" \/ sniff content = "XML"
  \/ sniff content = "Unknown".
Proof.
  unfold sniff. destruct (contains "<html" content); [now left|].
  destruct (contains "<quiz" content || contains "<question" content); auto.
Qed.

Lemma fold_left_pointwise {A B : Type} (f g : A -> B -> A) (l : list B)
  (a : A) :
  (forall x y, f x y = g x y) -> fold_left f l a = fold_left g l a.
Proof.
  intros H. revert a. induction l as [|y l IH]; intros a; [reflexivity|].
  simpl. now rewrite H, IH.
Qed.

(** A scan asks its [validate] function about the one format of the
    scan only. *)
Lemma scan_files_pointwise (v1 v2 : string -> string -> result Stats)
  (file_format : string) (files : list string) (g : GlobalSummary) :
  (forall file_path, v1 file_path file_format = v2 file_path file_format) ->
  scan_files v1 file_format files g = scan_files v2 file_format files g.
Proof.
  intros H. unfold scan_files. apply fold_left_pointwise.
  intros x y. unfold scan_file. now rewrite H.
Qed.

Lemma scan_recursive_pointwise (lower : string -> string)
  (join : string -> string -> string)
  (walk : string -> list (string * list string * list string))
  (v1 v2 : string -> string -> result Stats)
  (input : string) (extensions : list string) (file_format : string) :
  (forall file_path, v1 file_path file_format = v2 file_path file_format) ->
  scan_recursive lower join walk v1 input extensions file_format
  = scan_recursive lower join walk v2 input extensions file_format.
Proof.
  intros H. unfold scan_recursive. apply fold_left_pointwise.
  intros acc [[dirpath dirnames] filenames]. unfold scan_dir.
  destruct (is_empty (files_in_this_dir lower join extensions dirpath
                        filenames)); [reflexivity|].
  rewrite (fold_left_pointwise (scan_file_in_dir v1 file_format)
             (scan_file_in_dir v2 file_format)); [reflexivity|].
  intros x y. unfold scan_file_in_dir. now rewrite H.
Qed.

Section MainProperties.

Variable read_file : string -> string -> option nat -> read_result.
Variable lower : string -> string.
Variable join : string -> string -> string.
Variable listdir : string -> result (list string).
Variable isfile : string -> bool.
Variable walk : string -> list (string * list string * list string).
Variable path_exists : string -> bool.
Variable isdir : string -> bool.

Abbreviation run :=
  (main_with read_file lower join listdir isfile walk path_exists isdir).

Abbreviation validator :=
  (string -> string -> option string -> result (list error * Stats)).

(** What [main] does in single-file mode. *)
Lemma run_single (validate : validator) (args : Args) (input : string) :
  single_file_mode path_exists isdir args input ->
  run validate args
  = (file_format <- single_file_format read_file lower args input ;;
     r <- validate input file_format (args_format args) ;;
     Ok (Validated file_format r)).
Proof.
  intros (H1 & H2 & H3 & H4 & H5 & H6 & H7 & H8). unfold main_with.
  rewrite H1, H2, H3, H5, H6, H7, H8.
  apply String.eqb_neq in H4. simpl. now rewrite H4.
Qed.

(** What [main] does in scan mode. *)
Lemma run_scan (validate : validator) (args : Args) (input : string) :
  scan_mode path_exists isdir args input ->
  run validate args
  = if args_recursive args then
      Ok (Scanned (scan_file_format args)
            (fst (scan_recursive lower join walk
                    (validate_stats validate args) input
                    (fst (scan_setup args)) (scan_file_format args)))
            (snd (scan_recursive lower join walk
                    (validate_stats validate args) input
                    (fst (scan_setup args)) (scan_file_format args))))
    else
      (files <- files_to_scan lower join listdir isfile input
                  (fst (scan_setup args)) ;;
       Ok (Scanned (scan_file_format args) []
             (scan_files (validate_stats validate args)
                (scan_file_format args) files global_summary_init))).
Proof.
  intros (H1 & H2 & H3 & H4 & H5 & H6 & H7). unfold main_with.
  rewrite H1, H2, H3, H5, H6, H7.
  apply String.eqb_neq in H4. simpl. rewrite H4. simpl.
  now rewrite andb_false_r.
Qed.

(** The four ways through [main]. *)
Lemma run_modes (args : Args) :
  ((args_h args = true \/ args_help args = true)
   /\ forall validate : validator, run validate args = Ok (Exited 0))
  \/ (args_h args = false /\ args_help args = false
      /\ forall validate : validator, run validate args = Ok (Exited 1))
  \/ (exists input, scan_mode path_exists isdir args input)
  \/ (exists input, single_file_mode path_exists isdir args input).
Proof.
  unfold scan_mode, single_file_mode, main_with.
  destruct (args_h args); [left; split; [now left | reflexivity]|].
  destruct (args_help args); [left; split; [now right | reflexivity]|].
  right.
  destruct (args_input args) as [input|]; [|left; repeat split].
  destruct (String.eqb input EmptyString) eqn:N; simpl; rewrite N; simpl;
    [left; repeat split|].
  apply String.eqb_neq in N.
  destruct (path_exists input) eqn:X; simpl; [|left; repeat split].
  destruct (truthy (args_all args)) eqn:A.
  - rewrite andb_false_r.
    destruct (isdir input) eqn:D; simpl; [|left; repeat split].
    right. left. exists input. repeat split; assumption.
  - rewrite andb_true_r.
    destruct (args_recursive args) eqn:R; [left; repeat split|].
    destruct (isdir input) eqn:D; [left; repeat split|].
    right. right. exists input. repeat split; assumption.
Qed.

Lemma scan_file_format_range (args : Args) :
  args_informat args = None
  \/ args_informat args = Some "XML"
  \/ args_informat args = Some "HTML" ->
  scan_file_format args = "HTML" \/ scan_file_format args = "XML".
Proof.
  unfold scan_file_format, scan_setup, the_informat.
  intros [-> | [-> | ->]]; simpl; auto.
  destruct (all_is_h args); simpl; auto.
Qed.

Lemma single_file_format_range (args : Args) (input f : string) :
  args_informat args = None
  \/ args_informat args = Some "XML"
  \/ args_informat args = Some "HTML" ->
  single_file_format read_file lower args input = Ok f ->
  f = "HTML" \/ f = "XML".
Proof.
  unfold single_file_format, the_informat.
  intros [-> | [-> | ->]]; simpl.
  - unfold detect_format.
    destruct (read_head read_file lower input) as [content|e];
      [|discriminate].
    simpl. intros H. injection H as <-.
    destruct (sniff_range content) as [-> | [-> | ->]]; simpl; auto.
  - intros H. injection H as <-. auto.
  - intros H. injection H as <-. auto.
Qed.

(** X16.  Given the choices the command line admits for [--informat]
    ([XML], [HTML] or absent), [main] calls [validate_file] for the
    formats [HTML] and [XML] only, whether the call returns or raises:
    its outcome is the same with any function in the place of
    [validate_file] that does the same for these two formats.  In
    single-file mode the one call is for the format given or detected,
    and when none is given and the detected format is [Unknown], the
    file is validated as [XML].  The format of a scan is [HTML] or [XML]
    as well. *)
Theorem main_validates_as_html_or_xml (args : Args) :
  args_informat args = None
  \/ args_informat args = Some "XML"
  \/ args_informat args = Some "HTML" ->
  (forall validate1 validate2 : validator,
      (forall file_path file_format schema_option,
          file_format = "HTML" \/ file_format = "XML" ->
          validate1 file_path file_format schema_option
          = validate2 file_path file_format schema_option) ->
      run validate1 args = run validate2 args)
  /\ (forall (validate : validator) (input : string),
        single_file_mode path_exists isdir args input ->
        match single_file_format read_file lower args input with
        | Raise e => run validate args = Raise e
        | Ok file_format =>
            (file_format = "HTML" \/ file_format = "XML")
            /\ run validate args
               = (r <- validate input file_format (args_format args) ;;
                  Ok (Validated file_format r))
        end)
  /\ (forall (validate : validator) (input : string),
        single_file_mode path_exists isdir args input ->
        args_informat args = None ->
        detect_format read_file lower input = Ok "Unknown" ->
        run validate args
        = (r <- validate input "XML" (args_format args) ;;
           Ok (Validated "XML" r)))
  /\ (forall (validate : validator) (o : Outcome),
        run validate args = Ok o ->
        match o with
        | Exited _ => True
        | Scanned file_format _ _ | Validated file_format _ =>
            file_format = "HTML" \/ file_format = "XML"
        end).
Proof.
  intros Hin.
  assert (S : forall (validate : validator) input,
             single_file_mode path_exists isdir args input ->
             match single_file_format read_file lower args input with
             | Raise e => run validate args = Raise e
             | Ok file_format =>
                 (file_format = "HTML" \/ file_format = "XML")
                 /\ run validate args
                    = (r <- validate input file_format (args_format args) ;;
                       Ok (Validated file_format r))
             end).
  { intros validate input M. rewrite (run_single validate args input M).
    destruct (single_file_format read_file lower args input) as [f|e] eqn:F;
      [|reflexivity].
    split; [|reflexivity].
    exact (single_file_format_range args input f Hin F). }
  split; [|split; [exact S|split]].
  - intros validate1 validate2 H.
    destruct (run_modes args)
      as [[_ E] | [(_ & _ & E) | [[input M] | [input M]]]].
    + now rewrite !E.
    + now rewrite !E.
    + rewrite !(run_scan _ args input M).
      pose proof (scan_file_format_range args Hin) as F.
      assert (V : forall file_path,
                 validate_stats validate1 args file_path
                   (scan_file_format args)
                 = validate_stats validate2 args file_path
                     (scan_file_format args)).
      { intros file_path. unfold validate_stats. now rewrite H. }
      rewrite (scan_recursive_pointwise lower join walk _ _ input
                 (fst (scan_setup args)) (scan_file_format args) V).
      destruct (args_recursive args); [reflexivity|].
      destruct (files_to_scan lower join listdir isfile input
                  (fst (scan_setup args))) as [files|e]; [|reflexivity].
      simpl. now rewrite (scan_files_pointwise _ _ _ files _ V).
    + pose proof (S validate1 input M) as S1.
      pose proof (S validate2 input M) as S2.
      destruct (single_file_format read_file lower args input) as [f|e].
      * destruct S1 as [F ->]. destruct S2 as [_ ->]. now rewrite H.
      * congruence.
  - intros validate input M N D. rewrite (run_single validate args input M).
    unfold single_file_format. rewrite N, D. reflexivity.
  - intros validate o.
    destruct (run_modes args)
      as [[_ E] | [(_ & _ & E) | [[input M] | [input M]]]].
    + rewrite E. intros H. injection H as <-. exact I.
    + rewrite E. intros H. injection H as <-. exact I.
    + rewrite (run_scan validate args input M).
      pose proof (scan_file_format_range args Hin) as F.
      destruct (args_recursive args).
      * intros H. injection H as <-. exact F.
      * destruct (files_to_scan lower join listdir isfile input
                    (fst (scan_setup args))); [|discriminate].
        simpl. intros H. injection H as <-. exact F.
    + specialize (S validate input M).
      destruct (single_file_format read_file lower args input) as [f|e].
      * destruct S as [F ->].
        destruct (validate input f (args_format args)); [|discriminate].
        simpl. intros H. injection H as <-. exact F.
      * rewrite S. discriminate.
Qed.


(** X18.  The scan loops catch every exception of [validate_file]:
    whatever [validate_file] does on each file, return or raise, a
    recursive scan, and a flat scan whose [os.listdir] succeeds, end
    with a summary (printing is not modelled and taken not to fail).  An
    exception of [os.listdir] leaves [main] in a flat scan, and in
    single-file mode an exception of [validate_file] leaves [main]. *)
Theorem scan_catches_validation_exceptions
  (validate : validator) (args : Args) (input : string) :
  (scan_mode path_exists isdir args input ->
   (args_recursive args = true ->
    exists dirs g,
      run validate args = Ok (Scanned (scan_file_format args) dirs g))
   /\ (args_recursive args = false ->
       forall names,
         listdir input = Ok names ->
         exists g,
           run validate args = Ok (Scanned (scan_file_format args) [] g))
   /\ (args_recursive args = false ->
       forall e, listdir input = Raise e -> run validate args = Raise e))
  /\ (single_file_mode path_exists isdir args input ->
      forall file_format e,
        single_file_format read_file lower args input = Ok file_format ->
        validate input file_format (args_format args) = Raise e ->
        run validate args = Raise e).
Proof.
  split.
  - intros M. rewrite (run_scan validate args input M).
    split; [|split].
    + intros ->. eexists _, _. reflexivity.
    + intros -> names L. unfold files_to_scan. rewrite L. simpl.
      eexists. reflexivity.
    + intros -> e L. unfold files_to_scan. now rewrite L.
  - intros M file_format e F V.
    rewrite (run_single validate args input M), F. simpl. now rewrite V.
Qed.

End MainProperties.

Lemma main_validates_as_html_or_xml_witness :
  main_with (fun _ _ _ => ReadOk "plain text") (fun s => s)
    (fun d f => (d ++ "/" ++ f)%string) (fun _ => Ok []) (fun _ => true)
    (fun _ => []) (fun _ => true) (fun _ => false)
    (validate_file (fun _ _ _ => ReadOk "plain text") (fun _ => Ok [])
       (fun _ => Ok (Elem "a" [] [])))
    {| args_h := false; args_help := false;
       args_input := Some "notes.txt"; args_all := None;
       args_recursive := false; args_format := None;
       args_informat := None |}
  = Ok (Validated "XML" ([], {| stats_tags := 1; stats_errors := 0 |})).
Proof.
  apply (proj1 (proj2 (proj2
           (main_validates_as_html_or_xml
              (fun _ _ _ => ReadOk "plain text") (fun s => s)
              (fun d f => (d ++ "/" ++ f)%string) (fun _ => Ok [])
              (fun _ => true) (fun _ => []) (fun _ => true) (fun _ => false)
              {| args_h := false; args_help := false;
                 args_input := Some "notes.txt"; args_all := None;
                 args_recursive := false; args_format := None;
                 args_informat := None |}
              (or_introl eq_refl))))
           (validate_file (fun _ _ _ => ReadOk "plain text") (fun _ => Ok [])
              (fun _ => Ok (Elem "a" [] [])))
           "notes.txt").
  - repeat split. discriminate.
  - reflexivity.
  - reflexivity.
Defined.


Lemma scan_catches_validation_exceptions_witness :
  exists dirs g,
    main_with (fun _ _ _ => ReadOk "<quiz>") (fun s => s)
      (fun d f => (d ++ "/" ++ f)%string) (fun _ => Ok [])
      (fun _ => true)
      (fun _ => [("quizzes", [], ["a.xml"; "b.xml"])])
      (fun _ => true) (fun _ => true)
      (fun _ _ _ => Raise (AttributeError "sourceline"))
      {| args_h := false; args_help := false;
         args_input := Some "quizzes"; args_all := Some "x";
         args_recursive := true; args_format := Some "moodlemc";
         args_informat := None |}
    = Ok (Scanned "XML" dirs g).
Proof.
  apply (proj1 (proj1
           (scan_catches_validation_exceptions
              (fun _ _ _ => ReadOk "<quiz>") (fun s => s)
              (fun d f => (d ++ "/" ++ f)%string) (fun _ => Ok [])
              (fun _ => true)
              (fun _ => [("quizzes", [], ["a.xml"; "b.xml"])])
              (fun _ => true) (fun _ => true)
              (fun _ _ _ => Raise (AttributeError "sourceline"))
              {| args_h := false; args_help := false;
                 args_input := Some "quizzes"; args_all := Some "x";
                 args_recursive := true; args_format := Some "moodlemc";
                 args_informat := None |}
              "quizzes")
           ltac:(repeat split; discriminate))).
  reflexivity.
Defined.

(** * An XML scan *)

Lemma scan_files_single_errors
  (validate : string -> string -> result Stats) (file_format : string) :
  (forall file_path stats,
      validate file_path file_format = Ok stats -> stats_errors stats <= 1) ->
  forall (files : list string) (g : GlobalSummary),
    total_errors g = files_with_errors g ->
    total_errors (scan_files validate file_format files g)
    = files_with_errors (scan_files validate file_format files g).
Proof.
  intros B files. induction files as [|file_path files IH]; intros g H;
    [exact H|].
  rewrite scan_files_cons. apply IH. unfold scan_file.
  destruct (validate file_path file_format) as [stats|e] eqn:V; [|exact H].
  specialize (B _ _ V). unfold add_to_global. simpl.
  destruct (Nat.ltb_spec 0 (stats_errors stats)); lia.
Qed.

Lemma validate_stats_xml
  (read_file : string -> string -> option nat -> read_result)
  (tokenize : string -> result (list TagEvent))
  (fromstring : string -> result Element)
  (args : Args) (file_path : string) (stats : Stats) :
  validate_stats (validate_file read_file tokenize fromstring) args
    file_path "XML" = Ok stats ->
  stats_errors stats <= 1.
Proof.
  unfold validate_stats.
  destruct (validate_file read_file tokenize fromstring file_path "XML"
              (args_format args)) as [[errs st]|e] eqn:V; [|discriminate].
  simpl. intros H. injection H as <-.
  exact (validate_file_xml_errors _ _ _ _ _ _ _ V).
Qed.

(** X19.  In the summary of an XML scan, flat or recursive and with any
    schema option, the total number of errors equals the number of files
    with errors: each file counts for at most one error. *)
Theorem xml_scan_counts_one_error_per_file
  (read_file : string -> string -> option nat -> read_result)
  (lower : string -> string)
  (tokenize : string -> result (list TagEvent))
  (fromstring : string -> result Element)
  (join : string -> string -> string)
  (listdir : string -> result (list string))
  (isfile : string -> bool)
  (walk : string -> list (string * list string * list string))
  (path_exists isdir : string -> bool)
  (args : Args) (dirs : list (string * DirSummary)) (g : GlobalSummary) :
  main read_file lower tokenize fromstring join listdir isfile walk
    path_exists isdir args = Ok (Scanned "XML" dirs g) ->
  total_errors g = files_with_errors g.
Proof.
  unfold main.
  set (validate := validate_file read_file tokenize fromstring).
  destruct (run_modes read_file lower join listdir isfile walk path_exists
              isdir args)
    as [[_ E] | [(_ & _ & E) | [[input M] | [input M]]]].
  - rewrite E. discriminate.
  - rewrite E. discriminate.
  - rewrite (run_scan read_file lower join listdir isfile walk path_exists
               isdir validate args input M).
    assert (B : forall file_path stats,
               validate_stats validate args file_path "XML" = Ok stats ->
               stats_errors stats <= 1)
      by (intros file_path stats; apply validate_stats_xml).
    destruct (args_recursive args).
    + intros H. injection H as F _ <-. rewrite F. unfold scan_recursive.
      destruct (fold_scan_dir lower join (validate_stats validate args)
                  (fst (scan_setup args)) "XML" (walk input) []
                  global_summary_init) as (E & _).
      rewrite E. now apply scan_files_single_errors.
    + destruct (files_to_scan lower join listdir isfile input
                  (fst (scan_setup args))) as [files|e]; [|discriminate].
      simpl. intros H. injection H as F _ <-. rewrite F.
      now apply scan_files_single_errors.
  - rewrite (run_single read_file lower join listdir isfile walk path_exists
               isdir validate args input M).
    destruct (single_file_format read_file lower args input) as [f|e];
      [|discriminate].
    simpl. destruct (validate input f (args_format args)); discriminate.
Qed.

Lemma xml_scan_counts_one_error_per_file_witness :
  total_errors {| files_scanned := 2; files_with_errors := 2;
                  total_errors := 2; total_tags := 0 |}
  = files_with_errors {| files_scanned := 2; files_with_errors := 2;
                         total_errors := 2; total_tags := 0 |}.
Proof.
  apply (xml_scan_counts_one_error_per_file
           (fun _ _ _ => ReadOk "<a><b></a>") (fun s => s) (fun _ => Ok [])
           (fun _ => Raise (ParseErrorExn
                              {| position := (1, 8)%Z;
                                 message_of := "mismatched tag" |}))
           (fun d f => (d ++ "/" ++ f)%string)
           (fun _ => Ok ["a.xml"; "b.html"; "c.xml"]) (fun _ => true)
           (fun _ => []) (fun _ => true) (fun _ => true)
           {| args_h := false; args_help := false;
              args_input := Some "quizzes"; args_all := Some "x";
              args_recursive := false; args_format := Some "moodlemc";
              args_informat := None |}
           []
           {| files_scanned := 2; files_with_errors := 2;
              total_errors := 2; total_tags := 0 |}).
  reflexivity.
Defined.

(** * The documents that validate clean *)

Lemma open_prefix_raw_inv (stack : list string) (events : list TagEvent) :
  open_prefix stack true events ->
  exists stack0 events0 name pos inner,
    stack = stack0 ++ [name]
    /\ events = events0 ++ Open name pos :: inner
    /\ open_prefix stack0 false events0
    /\ classify name = RawContent
    /\ Forall nested_in_raw inner.
Proof.
  intros H. inversion H; subst.
  eexists _, _, _, _, _. repeat split; eassumption.
Qed.

Lemma open_prefix_plain_inv (stack : list string) (events : list TagEvent) :
  open_prefix stack false events ->
  (stack = [] /\ well_nested events)
  \/ exists stack0 events0 name pos w,
       stack = stack0 ++ [name]
       /\ events = events0 ++ Open name pos :: w
       /\ open_prefix stack0 false events0
       /\ classify name = Ordinary
       /\ well_nested w.
Proof.
  intros H. inversion H; subst.
  - now left.
  - right. eexists _, _, _, _, _. repeat split; eassumption.
Qed.

Lemma open_prefix_app (stack : list string) (events w : list TagEvent) :
  open_prefix stack false events ->
  well_nested w ->
  open_prefix stack false (events ++ w).
Proof.
  intros H W. destruct (open_prefix_plain_inv _ _ H)
    as [[-> H0] | (stack0 & events0 & name & pos & w0 & -> & -> & H0 & C & W0)].
  - apply op_closed. now apply wn_app.
  - rewrite <- app_assoc. simpl. apply op_element; try assumption.
    now apply wn_app.
Qed.

Lemma snoc_neq {A : Type} (l : list A) (x : A) : l ++ [x] <> l.
Proof.
  intros H. apply (f_equal (@length A)) in H.
  rewrite length_app in H. simpl in H. lia.
Qed.

(** One more event that adds no diagnostic keeps the input of that
    shape. *)
Lemma open_prefix_step (p : MyHTMLParser) (events : list TagEvent)
  (ev : TagEvent) :
  open_prefix (tags_stack p) (is_in_raw_context p) events ->
  errors (dispatch ev p) = errors p ->
  open_prefix (tags_stack (dispatch ev p))
    (is_in_raw_context (dispatch ev p)) (events ++ [ev]).
Proof.
  destruct p as [stack errs count raw]. simpl.
  destruct ev as [name pos | name pos | message pos]; simpl.
  - (* an open tag *)
    unfold handle_starttag. simpl. intros H _. destruct raw.
    + simpl. destruct (open_prefix_raw_inv _ _ H)
        as (stack0 & events0 & n & pos0 & inner & -> & -> & H0 & C & N).
      rewrite <- app_assoc. simpl. apply op_raw; try assumption.
      apply Forall_app. split; [exact N|]. now repeat constructor.
    + destruct (classify name) eqn:C.
      * apply classify_Void in C.
        assert (W : mem name raw_context_tags = false).
        { destruct (mem name raw_context_tags) eqn:E; [|reflexivity].
          apply raw_not_void in E. congruence. }
        rewrite W, C. simpl. apply open_prefix_app; [exact H|].
        apply wn_void. now apply classify_Void.
      * pose proof C as C'. apply classify_RawContent in C.
        rewrite C, (raw_not_void name C). simpl.
        apply op_raw; try assumption. constructor.
      * pose proof C as C'. apply classify_Ordinary in C.
        destruct C as [V W]. rewrite W, V. simpl.
        apply op_element; try assumption. apply wn_nil.
  - (* a close tag *)
    unfold handle_endtag. simpl. destruct raw.
    + intros H. destruct (open_prefix_raw_inv _ _ H)
        as (stack0 & events0 & n & pos0 & inner & -> & -> & H0 & C & N).
      destruct (mem name raw_context_tags) eqn:W; simpl.
      * rewrite (raw_not_void name W). simpl. rewrite peek_last.
        destruct (String.eqb n name) eqn:Q; simpl.
        -- intros _. apply String.eqb_eq in Q. subst n.
           rewrite removelast_last, <- app_assoc. simpl.
           apply open_prefix_app; [exact H0|]. now apply wn_raw.
        -- intros E. now apply snoc_neq in E.
      * intros _. rewrite <- app_assoc. simpl. apply op_raw; try assumption.
        apply Forall_app. split; [exact N|]. now repeat constructor.
    + intros H.
      assert (F : forall q : MyHTMLParser,
                 q = (if mem name raw_context_tags
                      then set_is_in_raw_context false
                             (mkParser stack errs count false)
                      else mkParser stack errs count false) ->
                 q = mkParser stack errs count false).
      { intros q ->. now destruct (mem name raw_context_tags). }
      rewrite (F _ eq_refl). simpl.
      destruct (mem name HTML_VOID_ELEMENTS) eqn:V; simpl.
      * intros E. now apply snoc_neq in E.
      * destruct (open_prefix_plain_inv _ _ H)
          as [[-> H0] | (stack0 & events0 & n & pos0 & w & -> & ->
                         & H0 & C & W0)].
        -- simpl. intros E. now apply snoc_neq in E.
        -- rewrite peek_last. destruct (String.eqb n name) eqn:Q; simpl.
           ++ intros _. apply String.eqb_eq in Q. subst n.
              rewrite removelast_last, <- app_assoc. simpl.
              apply open_prefix_app; [exact H0|]. now apply wn_element.
           ++ intros E. now apply snoc_neq in E.
  - (* a lexical error *)
    intros _ E. now apply snoc_neq in E.
Qed.

Lemma clean_feed_open_prefix (events : list TagEvent) :
  errors (feed events init) = [] ->
  open_prefix (tags_stack (feed events init))
    (is_in_raw_context (feed events init)) events.
Proof.
  induction events as [|ev events IH] using rev_ind.
  - intros _. apply op_closed, wn_nil.
  - rewrite feed_app. simpl. intros E.
    assert (E0 : errors (feed events init) = []).
    { destruct (dispatch_effect ev (feed events init))
        as [[He _] | [(_ & He & _) | [(_ & He & _) | (_ & _ & e & He)]]];
        rewrite He in E; try exact E.
      now apply app_eq_nil in E. }
    apply open_prefix_step; [now apply IH | congruence].
Qed.

(** X20.  The validator accepts exactly the [well_nested] inputs: it
    reports no diagnostic for an input if and only if the input is made,
    one after another, of void elements (an open tag alone), of ordinary
    elements closed in nesting order around such markup, and of
    raw-content elements closed by their own tag, between whose tags
    there are only open tags (of any name) and close tags of names that
    are not raw-content names; in particular the input has no lexical
    error, and a raw-content element that encloses the close tag of
    another raw-content name (as in pre, code, /code, /pre) is
    reported. *)
Theorem validates_clean_iff_well_nested (events : list TagEvent) :
  fst (validate_html events) = [] <-> well_nested events.
Proof.
  split.
  - unfold validate_html. cbn [fst]. intros H.
    apply app_eq_nil in H. destruct H as [E U].
    pose proof (clean_feed_open_prefix events E) as P.
    assert (S : tags_stack (feed events init) = []).
    { apply (f_equal (@length error)) in U.
      rewrite unclosed_errors_length in U.
      now destruct (tags_stack (feed events init)). }
    rewrite S in P. inversion P as [w W | |]; subst.
    + exact W.
    + now destruct stack.
    + now destruct stack.
  - intros W. unfold validate_html. cbn [fst].
    now rewrite (feed_well_nested events W init eq_refl).
Qed.

Lemma validates_clean_iff_well_nested_witness :
  well_nested
    [Open "pre" (1, 0)%Z; Open "b" (1, 5)%Z; Close "i" (1, 8)%Z;
     Close "pre" (1, 12)%Z; Open "hr" (2, 0)%Z].
Proof.
  apply (proj1 (validates_clean_iff_well_nested
                  [Open "pre" (1, 0)%Z; Open "b" (1, 5)%Z; Close "i" (1, 8)%Z;
                   Close "pre" (1, 12)%Z; Open "hr" (2, 0)%Z])).
  reflexivity.
Defined.

(** * What the multichoice rule returns *)

Lemma check_questions_returns (sourceline_of : Element -> option Z)
  (questions : list Element) (errs errs' : list error) :
  check_questions sourceline_of questions errs = Ok errs' ->
  errs' = errs ++ expected_report sourceline_of questions.
Proof.
  revert errs. induction questions as [|q questions IH]; intros errs H.
  - simpl in H. injection H as <-. simpl. now rewrite app_nil_r.
  - simpl in H. rewrite check_question_cases in H.
    unfold expected_report. simpl.
    fold (expected_report sourceline_of questions).
    destruct (sourceline_of q) as [line|].
    + simpl in H. rewrite (IH _ H). now rewrite app_assoc.
    + destruct (complete_question q); [|discriminate].
      simpl in H. now rewrite (IH _ H).
Qed.

Lemma check_questions_located_all (sourceline_of : Element -> option Z)
  (questions : list Element) (errs : list error) :
  (forall q, In q questions -> sourceline_of q <> None) ->
  check_questions sourceline_of questions errs
  = Ok (errs ++ expected_report sourceline_of questions).
Proof.
  revert errs. induction questions as [|q questions IH]; intros errs H.
  - simpl. now rewrite app_nil_r.
  - simpl. rewrite check_question_cases.
    unfold expected_report. simpl.
    fold (expected_report sourceline_of questions).
    destruct (sourceline_of q) as [line|] eqn:S.
    + simpl. rewrite IH by (intros q' Hq; apply H; now right).
      now rewrite app_assoc.
    + exfalso. apply (H q); [now left | exact S].
Qed.

(** X21.  Whenever [validate_moodle_mc] returns, it returns exactly the
    diagnostics the rule asks for: question by question in document
    order, and within a question for the name, the question text and the
    answers in that order, each at the source line of its question.  It
    does return whenever every multichoice question has a source line. *)
Theorem multichoice_rule_reports_in_document_order
  (sourceline_of : Element -> option Z) (root : Element) :
  (forall errs,
      validate_moodle_mc sourceline_of root = Ok errs ->
      errs = expected_report sourceline_of (findall_questions root))
  /\ ((forall q, In q (findall_questions root) -> sourceline_of q <> None) ->
      validate_moodle_mc sourceline_of root
      = Ok (expected_report sourceline_of (findall_questions root))).
Proof.
  unfold validate_moodle_mc. split.
  - intros errs H. now apply check_questions_returns in H.
  - intros H. now rewrite check_questions_located_all.
Qed.

Lemma multichoice_rule_reports_in_document_order_witness :
  validate_moodle_mc (fun q => Some 7%Z)
    (Elem "quiz" []
       [Elem "question" [("type", "multichoice")]
          [Elem "questiontext" [] []]])
  = Ok [(Line 7, "Missing <name> tag in multichoice question");
        (Line 7, "No <answer> tags found in multichoice question")].
Proof.
  apply (proj2 (multichoice_rule_reports_in_document_order
                  (fun q => Some 7%Z)
                  (Elem "quiz" []
                     [Elem "question" [("type", "multichoice")]
                        [Elem "questiontext" [] []]]))).
  intros q _. discriminate.
Defined.
